(** * Portfolio ledger and position lifecycle of the trading bot

    A shallow embedding of
      - [agents/utils/portfolio.py]        (class PortfolioManager),
      - [agents/application/paper_trader.py]   (PaperTrader._execute_trade),
      - [agents/application/dry_run_trader.py] (DryRunTrader.maintain_positions,
        the sizing of [one_best_trade], the daily statistics),
      - [agents/utils/trading_config.py]   (balance and daily limits),
      - [agents/utils/performance_analyzer.py] (drawdown, consistency),
    followed by the properties the specification states about them.

    Modelling conventions.
      - Amounts are embedded twice.  In the main development a Python
        [float] is an exact rational ([Q]): it carries the structure of the
        operations (which position is closed, which operand is debited,
        which branch is taken, bounds that rounding preserves) and the
        formulas in exact arithmetic; equalities between amounts are
        stated with [==] ([Qeq]).  Module [B64] embeds [apply_trade] and
        [close_position] on binary64 floats, every operation rounded as
        the code rounds it; the figures the code computes are stated
        there.  The main development has no infinities and no NaN.
      - [price], [size] and [notional] of a trade are numbers in [Trade];
        [RawTrade] is the dict before [float(...)] has converted them.
      - A dict read with [d.get(key, default)] is a record whose fields are
        [option]s; [get] supplies the default.
      - [datetime.now()] and [random.uniform] are inputs of the operation
        that calls them: a clock reading [now] and the drawn numbers.
      - The JSON file behind [storage_path] is part of the manager's state
        ([storage]); [save] overwrites it and [load] reads it. *)

From Stdlib Require Import List String Ascii Bool Arith NArith ZArith QArith Qminmax Lia Lqa.
From Stdlib Require Import DecimalString Floats.
Import ListNotations.

Open Scope string_scope.
Open Scope Q_scope.

(** ** Clock readings and the strings built from them *)

Record datetime : Type := {
  year : N;
  month : N;
  day : N;
  hour : N;
  minute : N;
  second : N;
  microsecond : N
}.

Definition digits (n : N) : string :=
  NilEmpty.string_of_uint (N.to_uint n).

Fixpoint zeros (n : nat) : string :=
  match n with
  | O => EmptyString
  | S k => String "0" (zeros k)
  end.

(** [str.zfill]: pad with zeros on the left up to [width]. *)
Definition zfill (width : nat) (s : string) : string :=
  (zeros (width - String.length s) ++ s)%string.

(** [d.strftime('%Y%m%d_%H%M%S')]: resolution of one second. *)
Definition strftime_Ymd_HMS (d : datetime) : string :=
  (zfill 4 (digits (year d)) ++ zfill 2 (digits (month d)) ++
   zfill 2 (digits (day d)) ++ "_" ++
   zfill 2 (digits (hour d)) ++ zfill 2 (digits (minute d)) ++
   zfill 2 (digits (second d)))%string.

(** [str.upper] on strings of ASCII characters (see [ascii_only]); the
    letters outside ASCII that [str.upper] maps to ASCII letters are not
    modelled. *)
Definition upper_ascii (c : ascii) : ascii :=
  let n := nat_of_ascii c in
  if ((97 <=? n)%nat && (n <=? 122)%nat)%bool then ascii_of_nat (n - 32) else c.

Fixpoint upper (s : string) : string :=
  match s with
  | EmptyString => EmptyString
  | String c r => String (upper_ascii c) (upper r)
  end.

(** [d.get(key, default)]. *)
Definition get {A : Type} (field : option A) (default : A) : A :=
  match field with
  | Some v => v
  | None => default
  end.

(** ** Data model *)

(** The trade dict handed to [apply_trade] and [_execute_trade], once
    [float(...)] has converted its numbers (see [RawTrade] for the dict
    before the conversions, which may raise). *)
Record Trade : Type := {
  trade_event_title : option string;
  trade_market_question : option string;
  trade_side : option string;
  trade_price : option Q;
  trade_size : option Q;
  trade_notional : option Q;
  trade_market_url : option string
}.

(** The position dict built by [apply_trade]. *)
Record Position : Type := {
  id : string;
  event_title : string;
  market_question : string;
  side : string;
  entry_price : Q;
  size_fraction : Q;
  notional : Q;
  qty : Q;
  opened_at : datetime
}.

(** The dict returned by [close_position]. *)
Record Closed : Type := {
  position_id : string;
  closed_side : string;
  closed_entry_price : Q;
  exit_price : Q;
  closed_notional : Q;
  realized_pnl : Q;
  closed_at : datetime
}.

(** The summary dict returned by [mark_to_market]. *)
Record Summary : Type := {
  summary_positions : nat;
  unrealized_pnl : Q;
  summary_balance : Q
}.

(** A field of the persisted document: absent, present with a value the
    conversion ([float(...)], [list(...)]) rejects, or present and
    convertible. *)
Inductive doc_field (A : Type) : Type :=
| Missing : doc_field A
| Bad : doc_field A
| Good : A -> doc_field A.

Arguments Missing {A}.
Arguments Bad {A}.
Arguments Good {A} _.

(** What is found at [storage_path]: no file, a file [json.load] fails on
    (or whose top-level value has no [get]), or a JSON object. *)
Inductive file : Type :=
| Absent : file
| Corrupt : file
| Document (doc_balance : doc_field Q)
           (doc_positions : doc_field (list Position))
           (doc_last_updated : option datetime) : file.

Record PortfolioManager : Type := {
  storage : file;
  current_balance : Q;
  positions : list Position;
  last_updated : datetime;
  _loaded : bool
}.

(** ** PortfolioManager *)

Definition save (now : datetime) (self : PortfolioManager) : PortfolioManager :=
  {| storage := Document (Good (current_balance self))
                         (Good (positions self)) (Some now);
     current_balance := current_balance self;
     positions := positions self;
     last_updated := last_updated self;
     _loaded := _loaded self |}.

Definition load (now : datetime) (self : PortfolioManager) : PortfolioManager :=
  match storage self with
  | Absent => self
  | Corrupt => save now self
  | Document bal pos upd =>
      match bal with
      | Bad => save now self
      | _ =>
          let b := match bal with
                   | Good b => b
                   | _ => current_balance self
                   end in
          match pos with
          | Bad =>
              (* [current_balance] was already assigned when [list(...)] raises *)
              save now {| storage := storage self;
                          current_balance := b;
                          positions := positions self;
                          last_updated := last_updated self;
                          _loaded := _loaded self |}
          | _ =>
              {| storage := storage self;
                 current_balance := b;
                 positions := match pos with
                              | Good l => l
                              | _ => []
                              end;
                 last_updated := get upd (last_updated self);
                 _loaded := true |}
          end
      end
  end.

(** [PortfolioManager(storage_path, initial_balance)]; [disk] is what
    [storage_path] holds when the constructor runs. *)
Definition __init__ (disk : file) (initial_balance : Q) (now : datetime)
  : PortfolioManager :=
  load now {| storage := disk;
              current_balance := initial_balance;
              positions := [];
              last_updated := now;
              _loaded := false |}.

Definition get_balance (self : PortfolioManager) : Q := current_balance self.

Definition get_positions (self : PortfolioManager) : list Position :=
  positions self.

(** The tail of [apply_trade]: debit, append the position, save.  [now] is
    the clock reading the id is made of; the later readings of the same
    call (for [opened_at] and in [save]) are not told apart from it. *)
Definition open_position (trade : Trade) (side0 : string) (price size_fraction0
  notional0 qty0 : Q) (now : datetime) (self : PortfolioManager)
  : PortfolioManager :=
  let position := {| id := ("pos_" ++ strftime_Ymd_HMS now)%string;
                     event_title := get (trade_event_title trade) "Unknown";
                     market_question := get (trade_market_question trade) "Unknown";
                     side := side0;
                     entry_price := price;
                     size_fraction := size_fraction0;
                     notional := notional0;
                     qty := qty0;
                     opened_at := now |} in
  save now {| storage := storage self;
              current_balance := current_balance self - notional0;
              positions := positions self ++ [position];
              last_updated := last_updated self;
              _loaded := _loaded self |}.

Definition apply_trade (trade : Trade) (now : datetime) (self : PortfolioManager)
  : PortfolioManager :=
  let side0 := upper (get (trade_side trade) "") in
  let price := get (trade_price trade) 0.5 in
  let size_fraction0 := get (trade_size trade) 0 in
  if Qle_bool size_fraction0 0 then self
  else
    let notional0 := Qmax 0 (Qmin 1 size_fraction0) * current_balance self in
    if (side0 =? "BUY")%string then
      open_position trade side0 price size_fraction0 notional0
                    (notional0 / Qmax price 0.01) now self
    else if (side0 =? "SELL")%string then
      open_position trade side0 price size_fraction0 notional0
                    (notional0 / Qmax (1 - price) 0.01) now self
    else self.

(** The linear price change of a binary contract, as [mark_to_market],
    [close_position] and [maintain_positions] compute it. *)
Definition change_of (side0 : string) (entry current : Q) : Q :=
  if (side0 =? "BUY")%string then current - entry
  else (1 - current) - (1 - entry).

Definition mark_to_market (current_price : option Q) (self : PortfolioManager)
  : Summary * PortfolioManager :=
  let summary := {| summary_positions := List.length (positions self);
                    unrealized_pnl := 0;
                    summary_balance := current_balance self |} in
  match current_price, positions self with
  | None, _ => (summary, self)
  | _, [] => (summary, self)
  | Some p, _ =>
      let unrealized :=
        fold_left (fun acc pos =>
                     acc + notional pos * change_of (side pos) (entry_price pos) p)
                  (positions self) 0 in
      ({| summary_positions := summary_positions summary;
          unrealized_pnl := unrealized;
          summary_balance := summary_balance summary |}, self)
  end.

(** The record [close_position] builds for the position it found. *)
Definition closed_record (pos : Position) (position_id0 : string) (exit_price0 : Q)
  (now : datetime) : Closed :=
  let change := change_of (side pos) (entry_price pos) exit_price0 in
  {| position_id := position_id0;
     closed_side := side pos;
     closed_entry_price := entry_price pos;
     exit_price := exit_price0;
     closed_notional := notional pos;
     realized_pnl := notional pos * change;
     closed_at := now |}.

(** The [for idx, pos in enumerate(self.positions)] loop: the first
    position whose id matches is closed and deleted from the list. *)
Fixpoint close_first (position_id0 : string) (exit_price0 : Q) (now : datetime)
  (l : list Position) : option (Closed * list Position) :=
  match l with
  | [] => None
  | pos :: rest =>
      if (id pos =? position_id0)%string then
        Some (closed_record pos position_id0 exit_price0 now, rest)
      else
        match close_first position_id0 exit_price0 now rest with
        | Some (r, rest') => Some (r, pos :: rest')
        | None => None
        end
  end.

Definition close_position (position_id0 : string) (exit_price0 : Q)
  (now : datetime) (self : PortfolioManager) : option Closed * PortfolioManager :=
  match close_first position_id0 exit_price0 now (positions self) with
  | Some (result, rest) =>
      (Some result,
       save now {| storage := storage self;
                   current_balance :=
                     current_balance self + (closed_notional result + realized_pnl result);
                   positions := rest;
                   last_updated := last_updated self;
                   _loaded := _loaded self |})
  | None => (None, self)
  end.

(** ** DryRunTrader.maintain_positions *)

(** The fields of [trading_config] read by the traders. *)
Record TradingConfig : Type := {
  max_position_size : Q;
  stop_loss_percentage : Q;
  take_profit_percentage : Q
}.

(** [max(0.01, min(0.99, x))]. *)
Definition clamp_price (x : Q) : Q := Qmax 0.01 (Qmin 0.99 x).

(** [change >= tp or change <= -sl]. *)
Definition triggered (cfg : TradingConfig) (change : Q) : bool :=
  Qle_bool (take_profit_percentage cfg) change
  || Qle_bool change (- stop_loss_percentage cfg).

(** One iteration of the loop over the snapshot; [u] is the number drawn by
    [random.uniform(-0.08, 0.08)].  The result is the record of the close,
    when one happened. *)
Definition maintain_position (cfg : TradingConfig) (pos : Position) (u : Q)
  (now : datetime) (portfolio : PortfolioManager)
  : option Closed * PortfolioManager :=
  let pos_id := id pos in
  let entry := entry_price pos in
  let current := clamp_price (entry + u) in
  let change := change_of (side pos) entry current in
  if triggered cfg change then close_position pos_id current now portfolio
  else (None, portfolio).

(** The loop; [draws k] is the number drawn at iteration [k]. *)
Fixpoint maintain_loop (cfg : TradingConfig) (snapshot : list Position)
  (draws : nat -> Q) (k : nat) (now : datetime) (portfolio : PortfolioManager)
  : list Closed * PortfolioManager :=
  match snapshot with
  | [] => ([], portfolio)
  | pos :: rest =>
      let '(closed, portfolio1) := maintain_position cfg pos (draws k) now portfolio in
      let '(alerts, portfolio2) := maintain_loop cfg rest draws (S k) now portfolio1 in
      (match closed with
       | Some r => r :: alerts
       | None => alerts
       end, portfolio2)
  end.

Definition maintain_positions (cfg : TradingConfig) (draws : nat -> Q)
  (now : datetime) (portfolio : PortfolioManager)
  : list Closed * PortfolioManager :=
  maintain_loop cfg (get_positions portfolio) draws 0 now portfolio.

(** ** PaperTrader._execute_trade *)

Record PaperTrader : Type := {
  commission_bps : Q;
  slippage_bps : Q;
  min_fill : Q;
  max_fill : Q
}.

(** The execution parameters set by [PaperTrader.__init__]. *)
Definition new_PaperTrader (commission_bps0 slippage_bps0 : option Q)
  (min_fill0 max_fill0 : Q) : PaperTrader :=
  let mn := Qmax 0.1 (Qmin min_fill0 1) in
  {| commission_bps := get commission_bps0 10;
     slippage_bps := get slippage_bps0 20;
     min_fill := mn;
     max_fill := Qmax mn (Qmin max_fill0 1) |}.

(** The dict returned by [_execute_trade]; the last three keys exist only
    when a trade was executed. *)
Record Execution : Type := {
  exec_side : string;
  exec_entry_price : Q;
  exec_exit_price : Q;
  exec_size : Q;
  pnl : Q;
  price_change : Q;
  commission_paid : option Q;
  fill_fraction : option Q;
  portfolio_balance : option Q
}.

(** [min(0.99, base + slip)] for BUY, [max(0.01, base - slip)] for SELL. *)
Definition exec_price_of (self : PaperTrader) (side0 : string) (base_price : Q) : Q :=
  let slip := slippage_bps self / 10000 in
  if (side0 =? "BUY")%string then Qmin 0.99 (base_price + slip)
  else Qmax 0.01 (base_price - slip).

(** The simulated exit price; [walk] is drawn by [random.uniform(-0.08, 0.08)]. *)
Definition exit_price_of (side0 : string) (exec_price walk : Q) : Q :=
  Qmax 0.01 (Qmin 0.99 (if (side0 =? "BUY")%string then exec_price + walk
                        else exec_price - walk)).

(** [apply_trade = dict(trade)] with the executed price and the filled size. *)
Definition filled_trade (self : PaperTrader) (trade : Trade) (fill : Q) : Trade :=
  let side0 := upper (get (trade_side trade) "UNKNOWN") in
  let size := get (trade_size trade) 0 in
  let base_price := get (trade_price trade) 0.5 in
  {| trade_event_title := trade_event_title trade;
     trade_market_question := trade_market_question trade;
     trade_side := trade_side trade;
     trade_price := Some (exec_price_of self side0 base_price);
     trade_size := Some (size * fill);
     trade_notional := trade_notional trade;
     trade_market_url := trade_market_url trade |}.

(** The guard at the head of [_execute_trade]. *)
Definition rejected (trade : Trade) : bool :=
  let side0 := upper (get (trade_side trade) "UNKNOWN") in
  let size := get (trade_size trade) 0 in
  let notional0 := get (trade_notional trade) 0 in
  Qle_bool size 0 || Qle_bool notional0 0
  || negb ((side0 =? "BUY")%string || (side0 =? "SELL")%string).

(** [fill] is drawn by [random.uniform(min_fill, max_fill)] and [walk] by
    [random.uniform(-0.08, 0.08)]. *)
Definition _execute_trade (self : PaperTrader) (trade : Trade) (fill walk : Q)
  (now : datetime) (portfolio : PortfolioManager)
  : Execution * PortfolioManager :=
  let side0 := upper (get (trade_side trade) "UNKNOWN") in
  let size := get (trade_size trade) 0 in
  let base_price := get (trade_price trade) 0.5 in
  let notional0 := get (trade_notional trade) 0 in
  if rejected trade then
    ({| exec_side := side0;
        exec_entry_price := base_price;
        exec_exit_price := base_price;
        exec_size := size;
        pnl := 0;
        price_change := 0;
        commission_paid := None;
        fill_fraction := None;
        portfolio_balance := None |}, portfolio)
  else
    let exec_price := exec_price_of self side0 base_price in
    let exec_notional := notional0 * fill in
    let fee := exec_notional * (commission_bps self / 10000) in
    let portfolio1 := apply_trade (filled_trade self trade fill) now portfolio in
    let exit_price0 := exit_price_of side0 exec_price walk in
    let moved := change_of side0 exec_price exit_price0 in
    let portfolio2 :=
      match last (map Some (positions portfolio1)) None with
      | Some last_pos => snd (close_position (id last_pos) exit_price0 now portfolio1)
      | None => portfolio1
      end in
    ({| exec_side := side0;
        exec_entry_price := exec_price;
        exec_exit_price := exit_price0;
        exec_size := size * fill;
        pnl := exec_notional * moved - fee;
        price_change := moved;
        commission_paid := Some fee;
        fill_fraction := Some fill;
        portfolio_balance := Some (get_balance portfolio2) |}, portfolio2).

(** ** Sequences of ledger operations *)

Inductive op : Type :=
| Open (trade : Trade) (now : datetime)
| Close (position_id0 : string) (exit_price0 : Q) (now : datetime).

(** Runs the operations in order; the second component collects the
    records returned by the closes that found a position. *)
Fixpoint run (ops : list op) (self : PortfolioManager)
  : PortfolioManager * list Closed :=
  match ops with
  | [] => (self, [])
  | Open trade now :: rest => run rest (apply_trade trade now self)
  | Close pid exit_price0 now :: rest =>
      let '(result, self1) := close_position pid exit_price0 now self in
      let '(self2, closes) := run rest self1 in
      (self2, match result with
              | Some r => r :: closes
              | None => closes
              end)
  end.

Definition total_notional (l : list Position) : Q :=
  fold_right (fun pos acc => notional pos + acc) 0 l.

Definition total_realized (l : list Closed) : Q :=
  fold_right (fun r acc => realized_pnl r + acc) 0 l.

(** ** Auxiliary definitions for the statements *)

(** The two outcomes of [apply_trade]: it returns the ledger it was given,
    or it opens a position for a positive size and a side BUY or SELL. *)
Inductive apply_trade_spec (trade : Trade) (now : datetime)
  (self : PortfolioManager) : PortfolioManager -> Prop :=
| apply_noop : apply_trade_spec trade now self self
| apply_open side0 price size_fraction0 qty0 :
    ~ size_fraction0 <= 0 ->
    side0 = "BUY" \/ side0 = "SELL" ->
    side0 = upper (get (trade_side trade) "") ->
    price = get (trade_price trade) 0.5 ->
    size_fraction0 = get (trade_size trade) 0 ->
    apply_trade_spec trade now self
      (open_position trade side0 price size_fraction0
         (Qmax 0 (Qmin 1 size_fraction0) * current_balance self) qty0 now self).

(** The position [close_position] finds under an id: the first one in the
    list that carries it. *)
Fixpoint find_position (position_id0 : string) (l : list Position)
  : option Position :=
  match l with
  | [] => None
  | pos :: rest =>
      if (id pos =? position_id0)%string then Some pos
      else find_position position_id0 rest
  end.

(** The list after [del self.positions[idx]] for the first position that
    carries the id. *)
Fixpoint delete_first (position_id0 : string) (l : list Position)
  : list Position :=
  match l with
  | [] => []
  | pos :: rest =>
      if (id pos =? position_id0)%string then rest
      else pos :: delete_first position_id0 rest
  end.

(** The amount the open of [_execute_trade] takes from the balance. *)
Definition paper_debit (self : PaperTrader) (trade : Trade) (fill : Q)
  (now : datetime) (portfolio : PortfolioManager) : Q :=
  current_balance portfolio
  - current_balance (apply_trade (filled_trade self trade fill) now portfolio).

(** The trade's side, upper-cased as both open paths do, is [name]. *)
Definition side_is (trade : Trade) (name : string) : Prop :=
  exists v, trade_side trade = Some v /\ upper v = name.

(** A price is a tradable probability. *)
Definition in_bounds (p : Q) : Prop := 0.01 <= p /\ p <= 0.99.

(** The documents [load] gives up on before it has taken a balance from
    them: unparsable ones, and objects whose [current_balance] cannot be
    converted (or is missing while [positions] cannot be converted). *)
Definition unreadable (disk : file) : bool :=
  match disk with
  | Corrupt => true
  | Document Bad _ _ => true
  | Document Missing Bad _ => true
  | _ => false
  end.

(** ** Concrete inputs used in the examples *)

Definition noon : datetime :=
  {| year := 2024%N; month := 5%N; day := 1%N;
     hour := 12%N; minute := 0%N; second := 0%N; microsecond := 0%N |}.

(** Half a second after [noon]. *)
Definition noon_and_a_half : datetime :=
  {| year := 2024%N; month := 5%N; day := 1%N;
     hour := 12%N; minute := 0%N; second := 0%N; microsecond := 500000%N |}.

Definition one_past_noon : datetime :=
  {| year := 2024%N; month := 5%N; day := 1%N;
     hour := 12%N; minute := 1%N; second := 0%N; microsecond := 0%N |}.

Definition intent (side0 : string) (price size : Q) : Trade :=
  {| trade_event_title := Some "Event";
     trade_market_question := Some "Question";
     trade_side := Some side0;
     trade_price := Some price;
     trade_size := Some size;
     trade_notional := None;
     trade_market_url := None |}.

(** An intent as [one_best_trade] hands it to [_execute_trade], with its
    [notional] key. *)
Definition paper_intent (side0 : string) (price size notional0 : Q) : Trade :=
  {| trade_event_title := Some "Event";
     trade_market_question := Some "Question";
     trade_side := Some side0;
     trade_price := Some price;
     trade_size := Some size;
     trade_notional := Some notional0;
     trade_market_url := None |}.

(** A manager constructed on a path where no file exists yet. *)
Definition fresh (initial_balance : Q) : PortfolioManager :=
  __init__ Absent initial_balance noon.

Definition default_config : TradingConfig :=
  {| max_position_size := 0.1;
     stop_loss_percentage := 0.05;
     take_profit_percentage := 0.15 |}.

(** Two clock readings that [strftime('%Y%m%d_%H%M%S')] cannot tell apart. *)
Definition same_second (a b : datetime) : Prop :=
  year a = year b /\ month a = month b /\ day a = day b /\
  hour a = hour b /\ minute a = minute b /\ second a = second b.

(** Two positions opened within one second, as two callers of the shared
    ledger produce them. *)
Definition two_opens_in_one_second : PortfolioManager :=
  apply_trade (intent "SELL" 0.50 0.5) noon_and_a_half
    (apply_trade (intent "BUY" 0.40 0.2) noon (fresh 100)).

(** A BUY opened at 0.50 with a tenth of a balance of 100. *)
Definition stop_loss_ledger : PortfolioManager :=
  apply_trade (intent "BUY" 0.50 0.1) noon (fresh 100).

(** The id of a position is the stamp of the second it was opened in. *)
Definition stamped (pos : Position) : Prop :=
  id pos = ("pos_" ++ strftime_Ymd_HMS (opened_at pos))%string.

(** The positions of a snapshot that the ticks of [maintain_positions]
    leave open: those whose change, at the price observed for them, crosses
    neither threshold. *)
Fixpoint survivors (cfg : TradingConfig) (snapshot : list Position)
  (draws : nat -> Q) (k : nat) : list Position :=
  match snapshot with
  | [] => []
  | pos :: rest =>
      let current := clamp_price (entry_price pos + draws k) in
      if triggered cfg (change_of (side pos) (entry_price pos) current)
      then survivors cfg rest draws (S k)
      else pos :: survivors cfg rest draws (S k)
  end.

(** ** Trade dicts with unconverted values *)

(** A value found under a numeric key of a trade dict, as [float(...)]
    judges it: a number (a string [float] accepts is the number it
    denotes), [None], or a string [float] rejects. *)
Inductive raw : Type :=
| Number (q : Q)
| NoneValue
| Text (s : string).

Inductive raised : Type :=
| Raises_TypeError
| Raises_ValueError.

(** The outcome of a call that may raise. *)
Inductive attempt (A : Type) : Type :=
| Done (a : A)
| Raised (e : raised).

Arguments Done {A} a.
Arguments Raised {A} e.

(** [float(v)]. *)
Definition float_of (v : raw) : attempt Q :=
  match v with
  | Number q => Done q
  | NoneValue => Raised Raises_TypeError
  | Text _ => Raised Raises_ValueError
  end.

(** The trade dict before any conversion. *)
Record RawTrade : Type := {
  raw_event_title : option string;
  raw_market_question : option string;
  raw_side : option string;
  raw_price : option raw;
  raw_size : option raw;
  raw_notional : option raw;
  raw_market_url : option string
}.

(** The dict once [price], [size] and [notional] are numbers. *)
Definition converted (trade : RawTrade) (price size : Q) (notional0 : option Q)
  : Trade :=
  {| trade_event_title := raw_event_title trade;
     trade_market_question := raw_market_question trade;
     trade_side := raw_side trade;
     trade_price := Some price;
     trade_size := Some size;
     trade_notional := notional0;
     trade_market_url := raw_market_url trade |}.

(** [PortfolioManager.apply_trade] from its first line: the side is made a
    string and upper-cased (which never raises), then [price] and [size]
    are converted, in this order and before either guard. *)
Definition apply_trade_of_dict (trade : RawTrade) (now : datetime)
  (self : PortfolioManager) : attempt PortfolioManager :=
  match float_of (get (raw_price trade) (Number 0.5)) with
  | Raised e => Raised e
  | Done price =>
      match float_of (get (raw_size trade) (Number 0)) with
      | Raised e => Raised e
      | Done size =>
          Done (apply_trade (converted trade price size None) now self)
      end
  end.

(** [PaperTrader._execute_trade] from its first line: [size], [price] and
    [notional] are converted, in this order and before the guard. *)
Definition _execute_trade_of_dict (self : PaperTrader) (trade : RawTrade)
  (fill walk : Q) (now : datetime) (portfolio : PortfolioManager)
  : attempt (Execution * PortfolioManager) :=
  match float_of (get (raw_size trade) (Number 0)) with
  | Raised e => Raised e
  | Done size =>
      match float_of (get (raw_price trade) (Number 0.5)) with
      | Raised e => Raised e
      | Done price =>
          match float_of (get (raw_notional trade) (Number 0)) with
          | Raised e => Raised e
          | Done notional0 =>
              Done (_execute_trade self
                      (converted trade price size (Some notional0))
                      fill walk now portfolio)
          end
      end
  end.

(** The value under a key is absent or a number. *)
Definition numeric (v : option raw) : Prop :=
  match v with
  | Some NoneValue => False
  | Some (Text _) => False
  | _ => True
  end.

(** The number under a key, or the default. *)
Definition number_of (v : option raw) (default : Q) : Q :=
  match v with
  | Some (Number q) => q
  | _ => default
  end.

(** The string holds ASCII characters only; on such strings [upper] is
    [str.upper]. *)
Fixpoint ascii_only (s : string) : bool :=
  match s with
  | EmptyString => true
  | String c r => (nat_of_ascii c <? 128)%nat && ascii_only r
  end.

Definition raw_intent (side0 : string) (price size : raw) : RawTrade :=
  {| raw_event_title := Some "Event";
     raw_market_question := Some "Question";
     raw_side := Some side0;
     raw_price := Some price;
     raw_size := Some size;
     raw_notional := None;
     raw_market_url := None |}.

(** ** The ledger in binary64

    [apply_trade] and [close_position] once more, with the amounts as the
    code holds them: binary64 floats, every operation rounded to nearest.
    The file is reduced to the document last written by [save]. *)

Set Warnings "-inexact-float".

Module B64.

Local Open Scope float_scope.

(** [max(a, b)] of Python: [a], unless [b] is larger. *)
Definition max (a b : float) : float := if PrimFloat.ltb a b then b else a.

(** [min(a, b)] of Python: [a], unless [b] is smaller. *)
Definition min (a b : float) : float := if PrimFloat.ltb b a then b else a.

Record Trade : Type := {
  trade_event_title : option string;
  trade_market_question : option string;
  trade_side : option string;
  trade_price : option float;
  trade_size : option float
}.

Record Position : Type := {
  id : string;
  event_title : string;
  market_question : string;
  side : string;
  entry_price : float;
  size_fraction : float;
  notional : float;
  qty : float;
  opened_at : datetime
}.

Record Closed : Type := {
  position_id : string;
  closed_side : string;
  closed_entry_price : float;
  exit_price : float;
  closed_notional : float;
  realized_pnl : float;
  closed_at : datetime
}.

Record PortfolioManager : Type := {
  current_balance : float;
  positions : list Position;
  saved : option (float * list Position * datetime)
}.

Definition save (now : datetime) (self : PortfolioManager) : PortfolioManager :=
  {| current_balance := current_balance self;
     positions := positions self;
     saved := Some (current_balance self, positions self, now) |}.

Definition open_position (trade : Trade) (side0 : string) (price size_fraction0
  notional0 qty0 : float) (now : datetime) (self : PortfolioManager)
  : PortfolioManager :=
  let position := {| id := ("pos_" ++ strftime_Ymd_HMS now)%string;
                     event_title := get (trade_event_title trade) "Unknown"%string;
                     market_question :=
                       get (trade_market_question trade) "Unknown"%string;
                     side := side0;
                     entry_price := price;
                     size_fraction := size_fraction0;
                     notional := notional0;
                     qty := qty0;
                     opened_at := now |} in
  save now {| current_balance := current_balance self - notional0;
              positions := (positions self ++ [position])%list;
              saved := saved self |}.

Definition apply_trade (trade : Trade) (now : datetime) (self : PortfolioManager)
  : PortfolioManager :=
  let side0 := upper (get (trade_side trade) ""%string) in
  let price := get (trade_price trade) 0.5 in
  let size_fraction0 := get (trade_size trade) 0 in
  if PrimFloat.leb size_fraction0 0 then self
  else
    let notional0 := max 0 (min 1 size_fraction0) * current_balance self in
    if (side0 =? "BUY")%string then
      open_position trade side0 price size_fraction0 notional0
                    (notional0 / max price 0.01) now self
    else if (side0 =? "SELL")%string then
      open_position trade side0 price size_fraction0 notional0
                    (notional0 / max (1 - price) 0.01) now self
    else self.

Definition change_of (side0 : string) (entry current : float) : float :=
  if (side0 =? "BUY")%string then current - entry
  else (1 - current) - (1 - entry).

Definition closed_record (pos : Position) (position_id0 : string)
  (exit_price0 : float) (now : datetime) : Closed :=
  let change := change_of (side pos) (entry_price pos) exit_price0 in
  {| position_id := position_id0;
     closed_side := side pos;
     closed_entry_price := entry_price pos;
     exit_price := exit_price0;
     closed_notional := notional pos;
     realized_pnl := notional pos * change;
     closed_at := now |}.

Fixpoint close_first (position_id0 : string) (exit_price0 : float)
  (now : datetime) (l : list Position) : option (Closed * list Position) :=
  match l with
  | [] => None
  | pos :: rest =>
      if (id pos =? position_id0)%string then
        Some (closed_record pos position_id0 exit_price0 now, rest)
      else
        match close_first position_id0 exit_price0 now rest with
        | Some (r, rest') => Some (r, pos :: rest')
        | None => None
        end
  end.

Definition close_position (position_id0 : string) (exit_price0 : float)
  (now : datetime) (self : PortfolioManager) : option Closed * PortfolioManager :=
  match close_first position_id0 exit_price0 now (positions self) with
  | Some (result, rest) =>
      (Some result,
       save now {| current_balance :=
                     current_balance self
                     + (closed_notional result + realized_pnl result);
                   positions := rest;
                   saved := saved self |})
  | None => (None, self)
  end.

(** [sum(p["notional"] for p in positions)]. *)
Definition total_notional (l : list Position) : float :=
  fold_left (fun acc pos => acc + notional pos) l 0.

(** A manager on a path where no file exists yet. *)
Definition fresh (initial_balance : float) : PortfolioManager :=
  {| current_balance := initial_balance; positions := []; saved := None |}.

Definition intent (side0 : string) (price size : float) : Trade :=
  {| trade_event_title := Some "Event"%string;
     trade_market_question := Some "Question"%string;
     trade_side := Some side0;
     trade_price := Some price;
     trade_size := Some size |}.

(** The round trip of the specification, on the code's floats: open BUY at
    0.40 with size 0.2 on a balance of 100, then close at 0.60;
    [realized] and [final_balance] are the realized PnL and the balance
    expected after the close. *)
Definition round_trip (realized final_balance : float) : Prop :=
  let opened := apply_trade (intent "BUY" 0.40 0.2) noon (fresh 100) in
  exists pos,
    positions opened = [pos] /\
    notional pos = 20 /\
    entry_price pos = 0.40 /\
    current_balance opened = 80 /\
    exists r,
      fst (close_position (id pos) 0.60 one_past_noon opened) = Some r /\
      realized_pnl r = 20 * (0.60 - 0.40) /\
      realized_pnl r = realized /\
      positions (snd (close_position (id pos) 0.60 one_past_noon opened)) = [] /\
      current_balance (snd (close_position (id pos) 0.60 one_past_noon opened))
      = final_balance.

(** One open and its close: SELL at 0.3 with size 0.3 on a balance of 100,
    closed at 0.44. *)
Definition sell_and_close : option Closed * PortfolioManager :=
  let opened := apply_trade (intent "SELL" 0.3 0.3) noon (fresh 100) in
  close_position ("pos_20240501_120000")%string 0.44 one_past_noon opened.

End B64.

(** ** A tick on colliding ids *)

(** The draws of a run of [maintain_positions] over two positions: no move
    for the first, 0.06 up for the second. *)
Definition second_moves_up (k : nat) : Q :=
  match k with
  | 1%nat => 0.06
  | _ => 0
  end.


From Stdlib Require Import DecimalN Qround Qabs.

(** ** Further definitions: the ledger across restarts, ids and liquidation *)

(** The ledger as a manager constructed later on the same file finds it. *)
Definition reload (default : Q) (later : datetime) (self : PortfolioManager)
  : PortfolioManager :=
  __init__ (storage self) default later.

(** The file holds exactly the balance and the positions of the manager. *)
Definition persisted (self : PortfolioManager) : Prop :=
  exists t,
    storage self
    = Document (Good (current_balance self)) (Good (positions self)) (Some t).

(** The ledger can be resumed with the default it was constructed with. *)
Definition resumable (default : Q) (self : PortfolioManager) : Prop :=
  forall later,
    current_balance (reload default later self) = current_balance self /\
    positions (reload default later self) = positions self.

(** A price that is a probability. *)
Definition unit_price (p : Q) : Prop := 0 <= p /\ p <= 1.

Definition op_prices_in_unit (o : op) : Prop :=
  match o with
  | Open trade _ => unit_price (get (trade_price trade) 0.5)
  | Close _ e _ => unit_price e
  end.

(** What [apply_trade] guarantees of a position it builds: the quantity is
    the quotient the code computes from the stored notional and the stored
    entry price (the same operations on the same operands, so the equality
    does not depend on how the division rounds). *)
Definition well_formed (pos : Position) : Prop :=
  0 < size_fraction pos /\
  ((side pos = "BUY" /\ qty pos = notional pos / Qmax (entry_price pos) 0.01)
   \/ (side pos = "SELL"
       /\ qty pos = notional pos / Qmax (1 - entry_price pos) 0.01)).

(** The clock readings of the opens of a sequence, in order. *)
Fixpoint open_times (ops : list op) : list datetime :=
  match ops with
  | [] => []
  | Open _ now :: rest => now :: open_times rest
  | Close _ _ _ :: rest => open_times rest
  end.

(** A reading of a clock of this millennium: [%Y] prints four digits. *)
Definition valid_clock (d : datetime) : Prop :=
  (1000 <= year d <= 9999)%N /\ (1 <= month d <= 12)%N /\
  (1 <= day d <= 31)%N /\ (hour d <= 23)%N /\ (minute d <= 59)%N /\
  (second d <= 59)%N.

(** No two readings of the list fall within the same second. *)
Fixpoint distinct_seconds (l : list datetime) : Prop :=
  match l with
  | [] => True
  | d :: rest =>
      (forall d', In d' rest -> ~ same_second d d') /\ distinct_seconds rest
  end.

(** Closing every open position at one price, front to back. *)
Definition close_all (exit_price0 : Q) (now : datetime) (self : PortfolioManager)
  : PortfolioManager * list Closed :=
  run (map (fun pos => Close (id pos) exit_price0 now) (positions self)) self.

(** The number a field of a stamp prints, read back. *)
Definition read_number (s : string) : N :=
  match NilEmpty.uint_of_string s with
  | Some d => N.of_uint d
  | None => 0%N
  end.

(** The balance is not negative, no position carries a negative notional,
    and every entry price is a probability. *)
Definition solvent (self : PortfolioManager) : Prop :=
  0 <= current_balance self /\
  Forall (fun pos => 0 <= notional pos /\ unit_price (entry_price pos))
         (positions self).

(** A balance after the closes of the records, credited in order as
    [close_position] does it: [balance += notional + realized]. *)
Definition credited (balance : Q) (records : list Closed) : Q :=
  fold_left (fun b r => b + (closed_notional r + realized_pnl r)) records balance.

(** The realized PnL of the records, added up in order from zero. *)
Definition running_pnl (records : list Closed) : Q :=
  fold_left (fun acc r => acc + realized_pnl r) records 0.

(** The id [apply_trade] gives to a position opened at a clock reading. *)
Definition id_at (now : datetime) : string :=
  ("pos_" ++ strftime_Ymd_HMS now)%string.

(** Every number below [bound] prints, zero-filled, on exactly [width]
    characters. *)
Definition prints_on (width : nat) (first count : nat) : bool :=
  forallb (fun k => (String.length (zfill width (digits (N.of_nat k))) =? width)%nat)
          (seq first count).

(** ** Further code: sizing, statistics, risk limits, performance metrics *)

(** [round(x)] to the nearest integer, ties to the even one. *)
Definition round_half_even (x : Q) : Z :=
  let f := Qfloor x in
  match Qcompare (x - inject_Z f) (1 # 2) with
  | Lt => f
  | Gt => (f + 1)%Z
  | Eq => if Z.even f then f else (f + 1)%Z
  end.

(** [round(x, 6)]. *)
Definition round6 (x : Q) : Q :=
  inject_Z (round_half_even (x * 1000000)) / 1000000.

(** [max_size = max(0.0, min(float(trading_config.max_position_size), 1.0))]. *)
Definition position_limit (cfg : TradingConfig) : Q :=
  Qmax 0 (Qmin (max_position_size cfg) 1).

(** [max(0.0, min(size_val, max_size))]. *)
Definition clamped_size (cfg : TradingConfig) (size_val : Q) : Q :=
  Qmax 0 (Qmin size_val (position_limit cfg)).

(** The trade dict of [one_best_trade] (both traders) after the clamp of
    its size and the computation of its notional from the balance before
    the trade. *)
Definition sized_trade (cfg : TradingConfig) (trade : Trade) (pre_balance : Q)
  : Trade :=
  let size := clamped_size cfg (get (trade_size trade) 0) in
  {| trade_event_title := trade_event_title trade;
     trade_market_question := trade_market_question trade;
     trade_side := trade_side trade;
     trade_price := trade_price trade;
     trade_size := Some size;
     trade_notional := Some (round6 (pre_balance * size));
     trade_market_url := trade_market_url trade |}.

(** [DryRunTrader.one_best_trade] from the clamp to [apply_trade]. *)
Definition dry_run_open (cfg : TradingConfig) (trade : Trade) (now : datetime)
  (portfolio : PortfolioManager) : PortfolioManager :=
  apply_trade (sized_trade cfg trade (get_balance portfolio)) now portfolio.

(** [PaperTrader.one_best_trade] from the clamp to [_execute_trade]. *)
Definition paper_trade (cfg : TradingConfig) (self : PaperTrader) (trade : Trade)
  (fill walk : Q) (now : datetime) (portfolio : PortfolioManager)
  : Execution * PortfolioManager :=
  _execute_trade self (sized_trade cfg trade (get_balance portfolio))
                 fill walk now portfolio.

(** The records of the closes that the ticks of [maintain_positions] make
    on a snapshot, in order. *)
Fixpoint tick_records (cfg : TradingConfig) (snapshot : list Position)
  (draws : nat -> Q) (k : nat) (now : datetime) : list Closed :=
  match snapshot with
  | [] => []
  | pos :: rest =>
      let current := clamp_price (entry_price pos + draws k) in
      if triggered cfg (change_of (side pos) (entry_price pos) current)
      then closed_record pos (id pos) current now
           :: tick_records cfg rest draws (S k) now
      else tick_records cfg rest draws (S k) now
  end.

(** The [daily_stats] dict of the traders (without its start time). *)
Record DailyStats : Type := {
  total_trades : nat;
  total_pnl : Q;
  winning_trades : nat;
  losing_trades : nat;
  stats_positions : list Execution
}.

Definition initial_stats : DailyStats :=
  {| total_trades := 0;
     total_pnl := 0;
     winning_trades := 0;
     losing_trades := 0;
     stats_positions := [] |}.

(** [x < y] on floats. *)
Definition Qlt_bool (x y : Q) : bool := negb (Qle_bool y x).

(** [PaperTrader._update_stats] and [DryRunTrader._update_trading_stats]. *)
Definition _update_stats (daily_stats : DailyStats) (trade_result : Execution)
  : DailyStats :=
  let pnl0 := pnl trade_result in
  let '(winning, losing) :=
    if Qlt_bool 0 pnl0 then
      (S (winning_trades daily_stats), losing_trades daily_stats)
    else if Qlt_bool pnl0 0 then
      (winning_trades daily_stats, S (losing_trades daily_stats))
    else (winning_trades daily_stats, losing_trades daily_stats) in
  {| total_trades := S (total_trades daily_stats);
     total_pnl := total_pnl daily_stats + pnl0;
     winning_trades := winning;
     losing_trades := losing;
     stats_positions := (stats_positions daily_stats ++ [trade_result])%list |}.

(** The summary dict of [get_daily_summary]. *)
Record DailySummary : Type := {
  summary_total_trades : nat;
  summary_total_pnl : Q;
  summary_winning_trades : nat;
  summary_losing_trades : nat;
  win_rate : Q
}.

(** [DryRunTrader.get_daily_summary]; [None] is the answer
    [{"message": "No trades executed today"}]. *)
Definition get_daily_summary (daily_stats : DailyStats) : option DailySummary :=
  match total_trades daily_stats with
  | O => None
  | S _ =>
      Some {| summary_total_trades := total_trades daily_stats;
              summary_total_pnl := total_pnl daily_stats;
              summary_winning_trades := winning_trades daily_stats;
              summary_losing_trades := losing_trades daily_stats;
              win_rate := inject_Z (Z.of_nat (winning_trades daily_stats))
                          / inject_Z (Z.of_nat (total_trades daily_stats)) |}
  end.

(** The statistics after a session of trades. *)
Definition session_stats (results : list Execution) : DailyStats :=
  fold_left _update_stats results initial_stats.

(** The sum of the reported PnL of a list of results. *)
Definition pnl_sum (results : list Execution) : Q :=
  fold_right (fun r acc => pnl r + acc) 0 results.

(** The number of results with a positive PnL. *)
Definition wins (results : list Execution) : nat :=
  List.length (filter (fun r => Qlt_bool 0 (pnl r)) results).

(** The number of results with a negative PnL. *)
Definition losses (results : list Execution) : nat :=
  List.length (filter (fun r => Qlt_bool (pnl r) 0) results).

(** ** TradingConfig: balance and daily limits *)

(** The fields of [trading_config] read by [get_available_balance] and
    [should_stop_trading]. *)
Record RiskLimits : Type := {
  trading_mode : string;
  dry_run_balance : Z;
  max_daily_trades : Z;
  max_daily_loss : Q
}.

Definition is_dry_run (self : RiskLimits) : bool :=
  (trading_mode self =? "dry_run")%string.

(** A [Decimal]: the configured balance in cents over 100 in dry-run mode,
    zero otherwise. *)
Definition get_available_balance (self : RiskLimits) : Q :=
  if is_dry_run self then inject_Z (dry_run_balance self) / 100 else 0.

(** A Python number as [daily_stats] holds it: an [int] or a [float]. *)
Inductive number : Type :=
| Int (z : Z)
| Float (q : Q).

(** The outcome of a call: a returned value, or a [TypeError]. *)
Inductive outcome (A : Type) : Type :=
| Returned (a : A)
| TypeError.

Arguments Returned {A} a.
Arguments TypeError {A}.

(** [abs(min(daily_pnl, 0)) / available_balance].  [min] returns
    [daily_pnl] unless it is positive, and then the [int] 0; an [int]
    divides a [Decimal], a [float] does not.  The [Decimal] quotient is
    taken exactly. *)
Definition daily_loss_share (daily_pnl : number) (available_balance : Q)
  : outcome Q :=
  match daily_pnl with
  | Int z =>
      Returned (inject_Z (Z.abs (if (0 <? z)%Z then 0%Z else z)) / available_balance)
  | Float q =>
      if Qlt_bool 0 q then Returned (inject_Z (Z.abs 0) / available_balance)
      else TypeError
  end.

(** [TradingConfig.should_stop_trading]; the two arguments are
    [daily_stats.get("total_trades")] and [daily_stats.get("total_pnl")]. *)
Definition should_stop_trading (self : RiskLimits) (total_trades0 : option Z)
  (total_pnl0 : option number) : outcome bool :=
  let daily_trades := get total_trades0 0%Z in
  let daily_pnl := get total_pnl0 (Int 0) in
  let available_balance := get_available_balance self in
  if (max_daily_trades self <=? daily_trades)%Z then Returned true
  else if Qlt_bool 0 available_balance then
    match daily_loss_share daily_pnl available_balance with
    | Returned daily_loss_percentage =>
        if Qle_bool (max_daily_loss self) daily_loss_percentage
        then Returned true
        else Returned false
    | TypeError => TypeError
    end
  else Returned false.

(** [DryRunTrader.pre_trade_logic] on the trader's statistics, whose total
    PnL is a [float]: it returns whether or not the limits are reached,
    unless the check raises. *)
Definition pre_trade_logic (limits : RiskLimits) (daily_stats : DailyStats)
  : outcome unit :=
  match should_stop_trading limits
          (Some (Z.of_nat (total_trades daily_stats)))
          (Some (Float (total_pnl daily_stats))) with
  | Returned _ => Returned tt
  | TypeError => TypeError
  end.

(** ** PerformanceAnalyzer: drawdown and consistency *)

(** The loop of [_calculate_max_drawdown]. *)
Fixpoint drawdown_loop (pnl_values : list Q) (peak max_dd : Q) : Q :=
  match pnl_values with
  | [] => max_dd
  | pnl0 :: rest =>
      let peak1 := if Qlt_bool peak pnl0 then pnl0 else peak in
      let dd := peak1 - pnl0 in
      let max_dd1 := if Qlt_bool max_dd dd then dd else max_dd in
      drawdown_loop rest peak1 max_dd1
  end.

Definition _calculate_max_drawdown (pnl_values : list Q) : Q :=
  match pnl_values with
  | [] => 0
  | first :: _ => drawdown_loop pnl_values first 0
  end.

(** [b] occurs in the list at the place of [a] or later. *)
Definition at_or_after (l : list Q) (a b : Q) : Prop :=
  exists l1 l2, l = (l1 ++ a :: l2)%list /\ In b (a :: l2).

(** [statistics.mean]. *)
Definition mean (values : list Q) : Q :=
  fold_right Qplus 0 values / inject_Z (Z.of_nat (List.length values)).

Definition _calculate_consistency_score (pnl_values : list Q) : Q :=
  if (List.length pnl_values <? 2)%nat then 100
  else
    let mean_pnl := mean pnl_values in
    let deviations := map (fun pnl0 => Qabs (pnl0 - mean_pnl)) pnl_values in
    let avg_deviation := mean deviations in
    if Qeq_bool avg_deviation 0 then 100
    else Qmax 0 (100 - avg_deviation * 10).

(** The limits of a configuration without environment overrides.  The
    loss limit is the double [0.1], whose value is
    3602879701896397 / 2^55. *)
Definition default_limits : RiskLimits :=
  {| trading_mode := "dry_run";
     dry_run_balance := 10000;
     max_daily_trades := 10;
     max_daily_loss := 3602879701896397 # 36028797018963968 |}.

(** * Properties *)

(** ** Basic facts about the operations *)

Lemma total_notional_app l pos :
  total_notional (l ++ [pos]) == total_notional l + notional pos.
Proof.
  induction l as [|p l IH]; simpl.
  - ring.
  - rewrite IH. ring.
Qed.

Lemma apply_trade_cases trade now self :
  apply_trade_spec trade now self (apply_trade trade now self).
Proof.
  unfold apply_trade.
  destruct (Qle_bool (get (trade_size trade) 0) 0) eqn:Hsz.
  - constructor.
  - assert (Hpos : ~ get (trade_size trade) 0 <= 0).
    { intro H. apply Qle_bool_iff in H. congruence. }
    destruct (upper (get (trade_side trade) "") =? "BUY")%string eqn:Hb.
    + apply String.eqb_eq in Hb.
      apply apply_open; auto.
    + destruct (upper (get (trade_side trade) "") =? "SELL")%string eqn:Hs.
      * apply String.eqb_eq in Hs.
        apply apply_open; auto.
      * constructor.
Qed.

Lemma apply_trade_conserves trade now self :
  current_balance (apply_trade trade now self)
    + total_notional (positions (apply_trade trade now self))
  == current_balance self + total_notional (positions self).
Proof.
  destruct (apply_trade_cases trade now self); [reflexivity|].
  simpl. rewrite total_notional_app. simpl. ring.
Qed.

Lemma close_first_record pid e now l r rest :
  close_first pid e now l = Some (r, rest) ->
  exists pos, In pos l /\ id pos = pid /\ r = closed_record pos pid e now.
Proof.
  revert r rest. induction l as [|p l IH]; intros r rest H; simpl in H.
  - discriminate.
  - destruct (id p =? pid)%string eqn:E.
    + inversion H; subst. apply String.eqb_eq in E.
      exists p. repeat split; simpl; auto.
    + destruct (close_first pid e now l) as [[r' rest']|] eqn:C; [|discriminate].
      inversion H; subst.
      destruct (IH _ _ eq_refl) as (pos & Hin & Hid & Hr).
      exists pos. repeat split; simpl; auto.
Qed.

Lemma close_first_total pid e now l r rest :
  close_first pid e now l = Some (r, rest) ->
  total_notional l == closed_notional r + total_notional rest.
Proof.
  revert r rest. induction l as [|p l IH]; intros r rest H; simpl in H.
  - discriminate.
  - destruct (id p =? pid)%string.
    + inversion H; subst. simpl. reflexivity.
    + destruct (close_first pid e now l) as [[r' rest']|]; [|discriminate].
      inversion H; subst. simpl. rewrite (IH _ _ eq_refl). ring.
Qed.

Lemma close_first_length pid e now l r rest :
  close_first pid e now l = Some (r, rest) -> List.length l = S (List.length rest).
Proof.
  revert r rest. induction l as [|p l IH]; intros r rest H; simpl in H.
  - discriminate.
  - destruct (id p =? pid)%string.
    + inversion H; subst. reflexivity.
    + destruct (close_first pid e now l) as [[r' rest']|]; [|discriminate].
      inversion H; subst. simpl. f_equal. eauto.
Qed.

Lemma close_first_none pid e now l :
  close_first pid e now l = None <-> (forall pos, In pos l -> id pos <> pid).
Proof.
  induction l as [|p l IH]; simpl.
  - split; [intros _ pos []|reflexivity].
  - destruct (id p =? pid)%string eqn:E.
    + apply String.eqb_eq in E. split; [discriminate|].
      intros H. exfalso. apply (H p); auto.
    + apply String.eqb_neq in E.
      destruct (close_first pid e now l) as [[r' rest']|].
      * split; [discriminate|].
        intros H. assert (Hn : Some (r', rest') = None); [|discriminate Hn].
        apply IH. intros pos Hin. apply H. auto.
      * split; [|reflexivity]. intros _ pos [<-|Hin]; auto.
        destruct IH as [IH _]. apply IH; auto.
Qed.

Lemma close_position_conserves pid e now self :
  current_balance (snd (close_position pid e now self))
    + total_notional (positions (snd (close_position pid e now self)))
  == current_balance self + total_notional (positions self)
     + match fst (close_position pid e now self) with
       | Some r => realized_pnl r
       | None => 0
       end.
Proof.
  unfold close_position.
  destruct (close_first pid e now (positions self)) as [[r rest]|] eqn:C; simpl.
  - rewrite (close_first_total _ _ _ _ _ _ C). ring.
  - ring.
Qed.

Lemma run_conserves ops : forall self,
  current_balance (fst (run ops self))
    + total_notional (positions (fst (run ops self)))
  == current_balance self + total_notional (positions self)
     + total_realized (snd (run ops self)).
Proof.
  induction ops as [|[trade now|pid e now] ops IH]; intros self; simpl.
  - ring.
  - rewrite IH. rewrite apply_trade_conserves. reflexivity.
  - pose proof (close_position_conserves pid e now self) as Hc.
    destruct (close_position pid e now self) as [result self1]; simpl in Hc.
    specialize (IH self1).
    destruct (run ops self1) as [self2 closes]; simpl in IH |- *.
    rewrite IH, Hc. destruct result; simpl; ring.
Qed.

(** ** Conservation *)


Lemma b64_close_first_record pid e now l r rest :
  B64.close_first pid e now l = Some (r, rest) ->
  exists pos, In pos l /\ r = B64.closed_record pos pid e now.
Proof.
  revert r rest. induction l as [|p l IH]; intros r rest H; simpl in H.
  - discriminate.
  - destruct (B64.id p =? pid)%string.
    + inversion H; subst. exists p. split; [now left|reflexivity].
    + destruct (B64.close_first pid e now l) as [[r' rest']|]; [|discriminate].
      inversion H; subst.
      destruct (IH _ _ eq_refl) as (pos & Hin & Hr).
      exists pos. split; [now right|exact Hr].
Qed.



(** ** Round trip *)

(** C2, as stated: the round trip does not realize exactly 4 and end on a
    balance of 84. *)
Lemma round_trip_not_84 : ~ B64.round_trip 4 84.
Proof.
  unfold B64.round_trip.
  intros (pos & Hpos & _ & _ & _ & r & _ & _ & _ & _ & Hbal).
  vm_compute in Hpos. injection Hpos as <-.
  apply (f_equal (fun v => PrimFloat.eqb v 84)) in Hbal.
  vm_compute in Hbal. discriminate Hbal.
Qed.

(** C2 (round trip, amended).  From a balance of 100, opening BUY at 0.40
    with size 0.2 gives one position with notional 20 and entry price 0.40
    and a balance of 80; closing it at 0.60 realizes 20 * (0.60 - 0.40),
    which the code computes as 3.999999999999999 (4 in exact arithmetic),
    leaves no open position and credits notional plus PnL: the balance
    becomes 104. *)
Theorem round_trip_104 : B64.round_trip 3.999999999999999 104.
Proof.
  unfold B64.round_trip.
  eexists. split; [vm_compute; reflexivity|].
  repeat split; try (vm_compute; reflexivity).
  eexists. split; [vm_compute; reflexivity|].
  repeat split; vm_compute; reflexivity.
Qed.

(** ** Position ids and closing by id *)

Lemma same_second_stamp a b :
  same_second a b -> strftime_Ymd_HMS a = strftime_Ymd_HMS b.
Proof.
  intros (Hy & Hmo & Hd & Hh & Hmi & Hs). unfold strftime_Ymd_HMS.
  now rewrite Hy, Hmo, Hd, Hh, Hmi, Hs.
Qed.

(** The id of a new position depends on the second of the clock reading and
    on nothing else. *)
Lemma open_position_id trade side0 price sf n q now self :
  positions (open_position trade side0 price sf n q now self)
  = (positions self
     ++ [{| id := ("pos_" ++ strftime_Ymd_HMS now)%string;
            event_title := get (trade_event_title trade) "Unknown";
            market_question := get (trade_market_question trade) "Unknown";
            side := side0;
            entry_price := price;
            size_fraction := sf;
            notional := n;
            qty := q;
            opened_at := now |}])%list.
Proof. reflexivity. Qed.

Lemma close_first_incl pid e now l r rest :
  close_first pid e now l = Some (r, rest) -> incl rest l.
Proof.
  revert r rest. induction l as [|p l IH]; intros r rest H; simpl in H.
  - discriminate.
  - destruct (id p =? pid)%string.
    + inversion H; subst. apply incl_tl, incl_refl.
    + destruct (close_first pid e now l) as [[r' rest']|]; [|discriminate].
      inversion H; subst. intros x [<-|Hx]; [now left|].
      right. eapply IH; eauto.
Qed.

Lemma apply_trade_stamped trade now self :
  Forall stamped (positions self) ->
  Forall stamped (positions (apply_trade trade now self)).
Proof.
  intros H. destruct (apply_trade_cases trade now self); [assumption|].
  rewrite open_position_id. apply Forall_app. split; [assumption|].
  constructor; [reflexivity|constructor].
Qed.

Lemma close_position_stamped pid e now self :
  Forall stamped (positions self) ->
  Forall stamped (positions (snd (close_position pid e now self))).
Proof.
  intros H. unfold close_position.
  destruct (close_first pid e now (positions self)) as [[r rest]|] eqn:C;
    [|assumption].
  simpl. rewrite Forall_forall in H |- *.
  intros x Hx. apply H. eapply close_first_incl; eauto.
Qed.

(** Every position of a ledger built by opens and closes carries the stamp
    of the second it was opened in as its id. *)
Lemma run_stamped ops : forall self,
  Forall stamped (positions self) ->
  Forall stamped (positions (fst (run ops self))).
Proof.
  induction ops as [|[trade now|pid e now] ops IH]; intros self H; simpl.
  - assumption.
  - apply IH, apply_trade_stamped, H.
  - pose proof (close_position_stamped pid e now self H) as Hc.
    destruct (close_position pid e now self) as [result self1]; simpl in Hc.
    specialize (IH self1 Hc).
    destruct (run ops self1) as [self2 closes]. exact IH.
Qed.

(** Hence two positions opened within the same second always share their
    id, whatever the trades were. *)
Lemma opened_in_one_second_share_id p q :
  stamped p -> stamped q -> same_second (opened_at p) (opened_at q) ->
  id p = id q.
Proof.
  unfold stamped. intros -> -> H. now rewrite (same_second_stamp _ _ H).
Qed.

(** C4, on the code: two positions opened within the same second (half a
    second apart) are both in the ledger and carry the same id, so the ids
    of the position sequence are not pairwise distinct. *)
Theorem ids_collide_within_one_second :
  same_second noon noon_and_a_half /\
  map id (positions two_opens_in_one_second)
  = ["pos_20240501_120000"; "pos_20240501_120000"] /\
  ~ NoDup (map id (positions two_opens_in_one_second)).
Proof.
  split; [repeat split|]. split; [reflexivity|].
  intros H. change (map id (positions two_opens_in_one_second))
    with ["pos_20240501_120000"; "pos_20240501_120000"] in H.
  inversion H as [|x l Hnotin _]; subst. apply Hnotin. left. reflexivity.
Qed.

(** Closing an id that no open position carries changes nothing and
    returns [None]. *)
Lemma close_missing_is_noop pid e now self :
  (forall pos, In pos (positions self) -> id pos <> pid) ->
  close_position pid e now self = (None, self).
Proof.
  intros H. unfold close_position.
  apply (close_first_none pid e now) in H. now rewrite H.
Qed.

Lemma close_first_removes pid e now l r rest :
  close_first pid e now l = Some (r, rest) ->
  NoDup (map id l) ->
  forall pos, In pos rest -> id pos <> pid.
Proof.
  revert r rest. induction l as [|p l IH]; intros r rest H Hnd; simpl in H.
  - discriminate.
  - inversion Hnd as [|x xs Hnotin Hnd']; subst.
    destruct (id p =? pid)%string eqn:E.
    + apply String.eqb_eq in E. inversion H; subst.
      intros pos Hin Heq. apply Hnotin. rewrite <- Heq.
      now apply in_map.
    + apply String.eqb_neq in E.
      destruct (close_first pid e now l) as [[r' rest']|] eqn:C; [|discriminate].
      inversion H; subst. intros pos [<-|Hin]; [assumption|].
      eapply IH; eauto.
Qed.

(** While the ids of the open positions are pairwise distinct, a second
    close of the same id finds nothing: it returns [None] and leaves the
    ledger as the first close left it. *)
Lemma close_twice_distinct_ids pid e1 e2 now1 now2 self :
  NoDup (map id (positions self)) ->
  let once := snd (close_position pid e1 now1 self) in
  close_position pid e2 now2 once = (None, once).
Proof.
  intros Hnd once. apply close_missing_is_noop.
  unfold once, close_position.
  destruct (close_first pid e1 now1 (positions self)) as [[r rest]|] eqn:C; simpl.
  - eapply close_first_removes; eauto.
  - now apply (close_first_none pid e1 now1).
Qed.

(** C3, on the code: in the ledger with two positions opened within one
    second, closing their common id twice finds a position both times, and
    the second call changes the balance and the position sequence again. *)
Theorem double_close_changes_balance_twice :
  let pid := "pos_20240501_120000" in
  let once := snd (close_position pid 0.60 one_past_noon two_opens_in_one_second) in
  let twice := close_position pid 0.60 one_past_noon once in
  current_balance two_opens_in_one_second == 40 /\
  current_balance once == 64 /\
  fst twice <> None /\
  current_balance (snd twice) == 100 /\
  ~ current_balance (snd twice) == current_balance once /\
  positions (snd twice) <> positions once.
Proof.
  cbv zeta. repeat split; try reflexivity; try discriminate.
Qed.

(** ** The open of the paper trader *)

Lemma clamp_unit x : 0 <= x -> x <= 1 -> Qmax 0 (Qmin 1 x) == x.
Proof.
  intros H0 H1. rewrite (Q.min_r 1 x) by assumption.
  now apply Q.max_r.
Qed.

Lemma clamp_nonpositive x : x <= 0 -> Qmax 0 (Qmin 1 x) == 0.
Proof.
  intros H. apply Q.max_l.
  apply Qle_trans with x; [apply Q.le_min_r|assumption].
Qed.

(** An intent that passes the guard of [_execute_trade] has a side that
    [apply_trade] accepts. *)
Lemma accepted_side trade :
  rejected trade = false ->
  upper (get (trade_side trade) "") = "BUY"
  \/ upper (get (trade_side trade) "") = "SELL".
Proof.
  unfold rejected. intros H.
  apply orb_false_iff in H. destruct H as [_ H].
  apply negb_false_iff, orb_true_iff in H.
  destruct (trade_side trade) as [v|]; simpl in *.
  - destruct H as [H|H]; apply String.eqb_eq in H; auto.
  - destruct H as [H|H]; discriminate H.
Qed.

Lemma accepted_size trade :
  rejected trade = false -> 0 < get (trade_size trade) 0.
Proof.
  unfold rejected. intros H.
  apply orb_false_iff in H. destruct H as [H _].
  apply orb_false_iff in H. destruct H as [H _].
  apply Qnot_le_lt. intros Hle. apply Qle_bool_iff in Hle. congruence.
Qed.

Lemma paper_debit_value self trade fill now portfolio :
  rejected trade = false ->
  paper_debit self trade fill now portfolio
  == Qmax 0 (Qmin 1 (get (trade_size trade) 0 * fill)) * current_balance portfolio.
Proof.
  intros Hok. unfold paper_debit, apply_trade. simpl.
  destruct (Qle_bool (get (trade_size trade) 0 * fill) 0) eqn:Hsz.
  - apply Qle_bool_iff in Hsz. rewrite (clamp_nonpositive _ Hsz). ring.
  - destruct (accepted_side trade Hok) as [Hs|Hs]; rewrite Hs; simpl; ring.
Qed.




(** ** The tick of the dry-run trader *)

Lemma triggered_iff cfg change :
  triggered cfg change = true
  <-> take_profit_percentage cfg <= change \/ change <= - stop_loss_percentage cfg.
Proof.
  unfold triggered. rewrite orb_true_iff, !Qle_bool_iff. reflexivity.
Qed.

Lemma clamp_price_in_bounds x : in_bounds (clamp_price x).
Proof.
  unfold in_bounds, clamp_price. split.
  - apply Q.le_max_l.
  - apply Q.max_lub; [discriminate|apply Q.le_min_l].
Qed.

Lemma clamp_price_id x : in_bounds x -> clamp_price x == x.
Proof.
  intros [Hlo Hhi]. unfold clamp_price.
  rewrite (Q.min_r 0.99 x) by assumption.
  now apply Q.max_r.
Qed.

Lemma close_first_found pid e now l pos :
  find_position pid l = Some pos ->
  close_first pid e now l
  = Some (closed_record pos pid e now, delete_first pid l).
Proof.
  induction l as [|p l IH]; simpl; [discriminate|].
  destruct (id p =? pid)%string.
  - intros H. inversion H; subst. reflexivity.
  - intros H. rewrite (IH H). reflexivity.
Qed.

Lemma close_first_member e now l pos :
  In pos l ->
  exists r rest, close_first (id pos) e now l = Some (r, rest).
Proof.
  intros Hin.
  destruct (close_first (id pos) e now l) as [[r rest]|] eqn:C; eauto.
  exfalso. destruct (close_first_none (id pos) e now l) as [Hnone _].
  now apply (Hnone C pos Hin).
Qed.

(** What a triggered close returns and leaves behind. *)
Lemma close_position_member e now self pos :
  In pos (positions self) ->
  exists r,
    fst (close_position (id pos) e now self) = Some r /\
    position_id r = id pos /\ exit_price r = e /\
    S (List.length (positions (snd (close_position (id pos) e now self))))
    = List.length (positions self).
Proof.
  intros Hin. unfold close_position.
  destruct (close_first_member e now _ _ Hin) as (r & rest & C). rewrite C. simpl.
  exists r. split; [reflexivity|].
  destruct (close_first_record _ _ _ _ _ _ C) as (p & _ & _ & Hr).
  rewrite Hr. simpl. repeat split.
  symmetry. eapply close_first_length; eauto.
Qed.

Lemma close_position_found pid e now self pos :
  find_position pid (positions self) = Some pos ->
  let change := change_of (side pos) (entry_price pos) e in
  fst (close_position pid e now self) = Some (closed_record pos pid e now) /\
  positions (snd (close_position pid e now self))
  = delete_first pid (positions self) /\
  current_balance (snd (close_position pid e now self))
  == current_balance self + notional pos + notional pos * change.
Proof.
  intros Hfound change. unfold close_position.
  rewrite (close_first_found pid e now _ _ Hfound). simpl.
  repeat split. fold change. ring.
Qed.

(** The tick of one position.  For a position [pos] of the ledger and a
    drawn move [u], the tick observes [current = clamp (entry + u)] and computes
    [change = current - entry] for BUY and [(1 - current) - (1 - entry)] for
    SELL.  It closes a position under [pos]'s id, at the observed price,
    exactly when [change >= take_profit] or [change <= - stop_loss];
    otherwise the ledger is untouched.  When [pos] is the position its id
    designates, the close removes [pos] and realizes
    [notional pos * change].  In particular a BUY opened at 0.50 with a
    stop loss of 0.05 closes on the observed price 0.44 with realized PnL
    [notional * (-0.06)]. *)
Theorem tick_trigger (cfg : TradingConfig) (pos : Position) (u : Q)
  (now : datetime) (portfolio : PortfolioManager) :
  In pos (positions portfolio) ->
  let current := clamp_price (entry_price pos + u) in
  let change := change_of (side pos) (entry_price pos) current in
  let result := maintain_position cfg pos u now portfolio in
  (side pos = "BUY" -> change = current - entry_price pos) /\
  (side pos = "SELL" -> change = (1 - current) - (1 - entry_price pos)) /\
  ((take_profit_percentage cfg <= change \/ change <= - stop_loss_percentage cfg)
   <-> exists r, fst result = Some r) /\
  (forall r, fst result = Some r ->
     position_id r = id pos /\ exit_price r = current /\
     S (List.length (positions (snd result))) = List.length (positions portfolio) /\
     (find_position (id pos) (positions portfolio) = Some pos ->
        realized_pnl r == notional pos * change /\
        positions (snd result) = delete_first (id pos) (positions portfolio) /\
        current_balance (snd result)
        == current_balance portfolio + notional pos + notional pos * change)) /\
  (fst result = None -> snd result = portfolio) /\
  (side pos = "BUY" -> entry_price pos == 0.50 -> u == -0.06 ->
   stop_loss_percentage cfg == 0.05 ->
   find_position (id pos) (positions portfolio) = Some pos ->
   current == 0.44 /\
   exists r, fst result = Some r /\ realized_pnl r == notional pos * (-0.06)).
Proof.
  intros Hin current change result.
  assert (Hbuy : side pos = "BUY" -> change = current - entry_price pos).
  { unfold change, change_of. intros ->. reflexivity. }
  assert (Hsell : side pos = "SELL" -> change = (1 - current) - (1 - entry_price pos)).
  { unfold change, change_of. intros ->. reflexivity. }
  destruct (close_position_member current now portfolio pos Hin)
    as (r0 & Hr0 & Hid0 & Hexit0 & Hlen0).
  pose proof (close_position_found (id pos) current now portfolio pos) as Hfound.
  cbv zeta in Hfound. fold change in Hfound.
  assert (Hreal : realized_pnl (closed_record pos (id pos) current now)
                  = notional pos * change) by reflexivity.
  assert (Hexample :
            side pos = "BUY" -> entry_price pos == 0.50 -> u == -0.06 ->
            stop_loss_percentage cfg == 0.05 ->
            current == 0.44 /\ change == -0.06 /\ triggered cfg change = true).
  { intros Hb Hentry Hu Hsl.
    assert (Hcur : current == 0.44).
    { unfold current. rewrite clamp_price_id.
      - rewrite Hentry, Hu. reflexivity.
      - unfold in_bounds. rewrite Hentry, Hu. split; discriminate. }
    assert (Hchange : change == -0.06).
    { rewrite (Hbuy Hb), Hcur, Hentry. reflexivity. }
    repeat split; auto.
    apply triggered_iff. right. rewrite Hchange, Hsl. discriminate. }
  assert (Hiff : triggered cfg change = true
                 <-> take_profit_percentage cfg <= change
                     \/ change <= - stop_loss_percentage cfg)
    by apply triggered_iff.
  assert (Hresult : result = if triggered cfg change
                             then close_position (id pos) current now portfolio
                             else (None, portfolio)) by reflexivity.
  clearbody result change current.
  destruct (triggered cfg change); subst result.
  - split; [exact Hbuy|]. split; [exact Hsell|].
    split; [split; [eauto|intros _; now apply Hiff]|].
    split; [|split].
    + intros r Hr. rewrite Hr0 in Hr. inversion Hr; subst r.
      split; [exact Hid0|]. split; [exact Hexit0|]. split; [exact Hlen0|].
      intros Hf. destruct (Hfound Hf) as (Hrec & Hp & Hb).
      rewrite Hr0 in Hrec. inversion Hrec.
      rewrite Hreal. repeat split; auto.
    + rewrite Hr0. discriminate.
    + intros Hb Hentry Hu Hsl Hf.
      destruct (Hexample Hb Hentry Hu Hsl) as (Hcur & Hchange & _).
      split; [exact Hcur|].
      destruct (Hfound Hf) as (Hrec & _ & _).
      eexists. split; [exact Hrec|]. rewrite Hreal, Hchange. reflexivity.
  - split; [exact Hbuy|]. split; [exact Hsell|].
    split; [split|].
    + intros H. apply Hiff in H. discriminate H.
    + intros [r Hr]. discriminate Hr.
    + split; [intros r Hr; discriminate Hr|]. split; [reflexivity|].
      intros Hb Hentry Hu Hsl _.
      destruct (Hexample Hb Hentry Hu Hsl) as (_ & _ & Ht). discriminate Ht.
Qed.

(** *** The whole loop *)

Lemma close_first_after_prefix pid e now kept pos rest :
  (forall p, In p kept -> id p <> pid) ->
  id pos = pid ->
  close_first pid e now (kept ++ pos :: rest)
  = Some (closed_record pos pid e now, (kept ++ rest)%list).
Proof.
  intros Hkept Hid. induction kept as [|p kept IH]; simpl.
  - apply String.eqb_eq in Hid. now rewrite Hid.
  - assert (E : (id p =? pid)%string = false).
    { apply String.eqb_neq, Hkept. now left. }
    rewrite E, IH; [reflexivity|].
    intros x Hx. apply Hkept. now right.
Qed.

Lemma maintain_loop_survivors cfg draws now :
  forall snapshot kept k portfolio,
    positions portfolio = (kept ++ snapshot)%list ->
    NoDup (map id (kept ++ snapshot)) ->
    positions (snd (maintain_loop cfg snapshot draws k now portfolio))
    = (kept ++ survivors cfg snapshot draws k)%list.
Proof.
  induction snapshot as [|pos rest IH]; intros kept k portfolio Hpos Hnd; simpl.
  - exact Hpos.
  - unfold maintain_position.
    destruct (triggered cfg _) eqn:Ht.
    + assert (Hfresh : forall p, In p kept -> id p <> id pos).
      { intros p Hp Heq. rewrite map_app in Hnd. simpl in Hnd.
        apply NoDup_remove_2 in Hnd. apply Hnd.
        apply in_or_app. left. rewrite <- Heq. now apply in_map. }
      unfold close_position. rewrite Hpos.
      rewrite (close_first_after_prefix _ _ _ _ _ _ Hfresh eq_refl).
      match goal with
      | |- context [maintain_loop cfg rest draws (S k) now ?pf] =>
          specialize (IH kept (S k) pf eq_refl)
      end.
      destruct (maintain_loop cfg rest draws (S k) now _) as [alerts pf2].
      simpl in IH |- *. apply IH.
      rewrite map_app in Hnd |- *. simpl in Hnd.
      now apply NoDup_remove_1 in Hnd.
    + specialize (IH (kept ++ [pos])%list (S k) portfolio).
      destruct (maintain_loop cfg rest draws (S k) now portfolio) as [alerts pf2].
      simpl in IH |- *. rewrite <- !app_assoc in IH. simpl in IH.
      now apply IH.
Qed.

(** On a ledger whose ids are pairwise distinct, a run of
    [maintain_positions] closes exactly the positions whose tick is
    triggered and keeps the others, in order. *)
Lemma maintain_positions_survivors cfg draws now portfolio :
  NoDup (map id (positions portfolio)) ->
  positions (snd (maintain_positions cfg draws now portfolio))
  = survivors cfg (positions portfolio) draws 0.
Proof.
  intros Hnd. unfold maintain_positions, get_positions.
  apply (maintain_loop_survivors cfg draws now (positions portfolio) [] 0 portfolio);
    [reflexivity|exact Hnd].
Qed.

(** *** A tick on colliding ids *)

(** C6, on the code: in the ledger with a BUY and a SELL opened within one
    second (same id), a run of [maintain_positions] in which the price of
    the BUY does not move and the price of the SELL moves 0.06 up
    triggers the stop loss of the SELL only.  The close by id finds the
    BUY first: the one record reported is for the BUY (its side, entry
    price and notional), at the price observed for the SELL, with a
    positive realized PnL where [notional * change] of the SELL is
    negative; the SELL stays open. *)
Theorem tick_closes_another_position :
  let result := maintain_positions default_config second_moves_up one_past_noon
                  two_opens_in_one_second in
  exists buy sell r,
    positions two_opens_in_one_second = [buy; sell] /\
    side buy = "BUY" /\ side sell = "SELL" /\ id buy = id sell /\
    triggered default_config
      (change_of (side buy) (entry_price buy)
         (clamp_price (entry_price buy + second_moves_up 0))) = false /\
    triggered default_config
      (change_of (side sell) (entry_price sell)
         (clamp_price (entry_price sell + second_moves_up 1))) = true /\
    fst result = [r] /\
    closed_side r = "BUY" /\
    closed_entry_price r = entry_price buy /\
    closed_notional r = notional buy /\
    exit_price r = clamp_price (entry_price sell + second_moves_up 1) /\
    0 < realized_pnl r /\
    notional sell * change_of (side sell) (entry_price sell) (exit_price r) < 0 /\
    positions (snd result) = [sell].
Proof.
  cbv zeta. eexists. eexists. eexists.
  split; [reflexivity|]. repeat split; reflexivity.
Qed.

(** ** Invalid intents *)

Lemma not_side_is trade name :
  ~ side_is trade name ->
  forall default, upper default <> name ->
  upper (get (trade_side trade) default) <> name.
Proof.
  intros Hnot default Hdefault Heq.
  destruct (trade_side trade) as [v|] eqn:E; simpl in Heq.
  - apply Hnot. exists v. auto.
  - auto.
Qed.

(** Past the conversions: when the side of the intent is neither BUY nor
    SELL (a missing side included) or its size fraction is not positive,
    [apply_trade] returns the ledger it was given, and [_execute_trade]
    returns a report with zero PnL and no fill next to the ledger it was
    given. *)
Lemma invalid_intent_is_noop (trade : Trade) (now : datetime)
  (self : PortfolioManager) (trader : PaperTrader) (fill walk : Q) :
  (~ side_is trade "BUY" /\ ~ side_is trade "SELL")
  \/ get (trade_size trade) 0 <= 0 ->
  apply_trade trade now self = self /\
  snd (_execute_trade trader trade fill walk now self) = self /\
  pnl (fst (_execute_trade trader trade fill walk now self)) = 0 /\
  fill_fraction (fst (_execute_trade trader trade fill walk now self)) = None.
Proof.
  intros H.
  assert (Hrej : rejected trade = true).
  { unfold rejected. destruct H as [[Hb Hs]|Hsz].
    - apply orb_true_iff. right. apply negb_true_iff, orb_false_iff.
      split; apply String.eqb_neq; apply not_side_is; auto; discriminate.
    - apply Qle_bool_iff in Hsz. rewrite Hsz. reflexivity. }
  split.
  - unfold apply_trade. destruct H as [[Hb Hs]|Hsz].
    + destruct (Qle_bool (get (trade_size trade) 0) 0); [reflexivity|].
      assert (Eb : (upper (get (trade_side trade) "") =? "BUY")%string = false).
      { apply String.eqb_neq, not_side_is; auto; discriminate. }
      assert (Es : (upper (get (trade_side trade) "") =? "SELL")%string = false).
      { apply String.eqb_neq, not_side_is; auto; discriminate. }
      rewrite Eb, Es. reflexivity.
    + apply Qle_bool_iff in Hsz. rewrite Hsz. reflexivity.
  - unfold _execute_trade. rewrite Hrej. simpl. auto.
Qed.




(** ** Price bounds *)

Lemma exit_price_of_in_bounds side0 exec_price walk :
  in_bounds (exit_price_of side0 exec_price walk).
Proof. apply clamp_price_in_bounds. Qed.

Lemma exec_price_of_in_bounds self side0 base_price :
  0 <= slippage_bps self -> in_bounds base_price ->
  in_bounds (exec_price_of self side0 base_price).
Proof.
  intros Hslip [Hlo Hhi]. unfold exec_price_of, in_bounds.
  assert (Hs : 0 <= slippage_bps self / 10000).
  { apply Qle_shift_div_l; [reflexivity|]. now rewrite Qmult_0_l. }
  destruct (side0 =? "BUY")%string.
  - split; [|apply Q.le_min_l].
    apply Q.min_glb; [discriminate|].
    apply Qle_trans with (base_price + 0).
    + now rewrite Qplus_0_r.
    + apply Qplus_le_r. exact Hs.
  - split; [apply Q.le_max_l|].
    apply Q.max_lub; [discriminate|].
    apply Qle_trans with base_price; [|assumption].
    apply Qle_minus_iff.
    setoid_replace (base_price + - (base_price - slippage_bps self / 10000))
      with (slippage_bps self / 10000) by ring.
    exact Hs.
Qed.

(** C8, as stated: [apply_trade] stores the price it is given, so an
    extreme quoted price ends up as the entry price of a position; and the
    paper trader caps a BUY from above only and a SELL from below only. *)
Lemma entry_price_out_of_bounds :
  (exists pos,
     positions (apply_trade (intent "BUY" 5 0.1) noon (fresh 100)) = [pos] /\
     entry_price pos == 5 /\ ~ in_bounds (entry_price pos)) /\
  (let report := fst (_execute_trade (new_PaperTrader None None 0.6 1)
                        (paper_intent "SELL" 5 0.1 10) 0.6 0.01 noon (fresh 100)) in
   exec_entry_price report == 4.998 /\ ~ in_bounds (exec_entry_price report)).
Proof.
  split.
  - eexists. split; [reflexivity|]. split; [reflexivity|].
    intros [_ H]. apply H. reflexivity.
  - cbv zeta. split; [reflexivity|].
    intros [_ H]. apply H. reflexivity.
Qed.

(** C8 (amended).  The exit price of every close the traders make lies in
    [0.01, 0.99]: the simulated exit of the paper trader and the price
    observed by the tick of the dry-run trader, whatever the prices and
    draws.  The entry price of the paper trader lies in [0.01, 0.99] when
    the quoted price does and the slippage is not negative.  The ledger
    itself does not bound prices: a position opened by [apply_trade]
    carries the price of the trade as its entry price, and
    [close_position] records the exit price it is given. *)
Theorem price_bounds_of_the_traders :
  (forall trader trade fill walk now portfolio,
     rejected trade = false ->
     in_bounds (exec_exit_price
                  (fst (_execute_trade trader trade fill walk now portfolio)))) /\
  (forall cfg pos u now portfolio r,
     fst (maintain_position cfg pos u now portfolio) = Some r ->
     in_bounds (exit_price r)) /\
  (forall trader trade fill walk now portfolio,
     rejected trade = false ->
     0 <= slippage_bps trader ->
     in_bounds (get (trade_price trade) 0.5) ->
     in_bounds (exec_entry_price
                  (fst (_execute_trade trader trade fill walk now portfolio)))) /\
  (forall trade now self pos,
     In pos (positions (apply_trade trade now self)) ->
     In pos (positions self) \/ entry_price pos = get (trade_price trade) 0.5) /\
  (forall pid e now self r,
     fst (close_position pid e now self) = Some r -> exit_price r = e).
Proof.
  split; [|split; [|split; [|split]]].
  - intros trader trade fill walk now portfolio Hok.
    unfold _execute_trade. rewrite Hok. simpl.
    apply exit_price_of_in_bounds.
  - intros cfg pos u now portfolio r. unfold maintain_position.
    destruct (triggered cfg _); [|discriminate].
    unfold close_position.
    destruct (close_first _ _ _ _) as [[r' rest]|] eqn:C; [|discriminate].
    simpl. intros H. inversion H; subst r'.
    destruct (close_first_record _ _ _ _ _ _ C) as (p & _ & _ & ->). simpl.
    apply clamp_price_in_bounds.
  - intros trader trade fill walk now portfolio Hok Hslip Hbase.
    unfold _execute_trade. rewrite Hok. simpl.
    now apply exec_price_of_in_bounds.
  - intros trade now self pos.
    destruct (apply_trade_cases trade now self)
      as [|side0 price sf q _ _ _ Hprice _]; [auto|].
    rewrite open_position_id. intros Hin.
    apply in_app_or in Hin. destruct Hin as [Hin|[<-|[]]]; [auto|].
    right. simpl. exact Hprice.
  - intros pid e now self r. unfold close_position.
    destruct (close_first _ _ _ _) as [[r' rest]|] eqn:C; [|discriminate].
    simpl. intros H. inversion H; subst r'.
    destruct (close_first_record _ _ _ _ _ _ C) as (p & _ & _ & ->).
    reflexivity.
Qed.

Lemma price_bounds_of_the_traders_witness :
  let trader := new_PaperTrader None None 0.6 1 in
  let trade := paper_intent "BUY" 0.985 0.1 10 in
  let report := fst (_execute_trade trader trade 0.6 0.08 noon (fresh 100)) in
  in_bounds (exec_exit_price report) /\ in_bounds (exec_entry_price report).
Proof.
  intros trader trade report.
  destruct price_bounds_of_the_traders as (Hexit & _ & Hentry & _).
  split.
  - apply Hexit. reflexivity.
  - apply Hentry.
    + reflexivity.
    + discriminate.
    + split; discriminate.
Defined.

(** ** Loading *)

(** C9, as stated: on a first run (no document) [load] writes nothing, so
    the document is still absent afterwards, and a later manager
    constructed with another default starts from that default instead of
    observing the state initialized before. *)
Lemma first_run_persists_nothing :
  storage (__init__ Absent 100 noon) = Absent /\
  current_balance (__init__ (storage (__init__ Absent 100 noon)) 250 one_past_noon)
  == 250 /\
  ~ current_balance (__init__ (storage (__init__ Absent 100 noon)) 250 one_past_noon)
    == 100.
Proof.
  repeat split; try reflexivity. discriminate.
Qed.

(** C9 (amended).  When the document is absent, the manager starts with
    the configured default balance and no positions, and nothing is
    written.  When the document cannot be read (it does not parse, or its
    balance cannot be taken), the manager keeps the configured default
    balance and no positions and immediately persists that state, so that
    a later construction, whatever its default, loads exactly that state:
    the unreadable document is recovered, not fatal. *)
Theorem load_recovery (initial_balance : Q) (now : datetime) :
  (let pm := __init__ Absent initial_balance now in
   current_balance pm = initial_balance /\ positions pm = [] /\
   storage pm = Absent) /\
  (forall disk, unreadable disk = true ->
     let pm := __init__ disk initial_balance now in
     current_balance pm = initial_balance /\ positions pm = [] /\
     storage pm = Document (Good initial_balance) (Good []) (Some now) /\
     forall other_default later,
       let pm' := __init__ (storage pm) other_default later in
       current_balance pm' = initial_balance /\ positions pm' = [] /\
       _loaded pm' = true).
Proof.
  split.
  - repeat split.
  - intros disk Hbad.
    destruct disk as [| |[| |b] [| |l] upd]; try discriminate Hbad;
      cbv zeta; repeat split.
Qed.

Lemma load_recovery_witness :
  let pm := __init__ Corrupt 100 noon in
  current_balance pm = 100 /\ positions pm = [] /\
  storage pm = Document (Good 100) (Good []) (Some noon) /\
  forall other_default later,
    let pm' := __init__ (storage pm) other_default later in
    current_balance pm' = 100 /\ positions pm' = [] /\ _loaded pm' = true.
Proof.
  destruct (load_recovery 100 noon) as [_ Hbad].
  apply (Hbad Corrupt). reflexivity.
Defined.

(** ** Mark to market *)

(** C10 (mark to market without a price).  For every ledger,
    [mark_to_market(None)] returns the number of open positions, the
    current balance and an unrealized PnL of exactly 0, open positions or
    not, and leaves the ledger as it was. *)
Theorem mark_to_market_without_price (self : PortfolioManager) :
  mark_to_market None self
  = ({| summary_positions := List.length (positions self);
        unrealized_pnl := 0;
        summary_balance := current_balance self |}, self).
Proof. reflexivity. Qed.

(** * Further properties of the code *)

(** ** The ledger across restarts *)

Lemma persisted_reload self :
  persisted self ->
  forall default later,
    current_balance (reload default later self) = current_balance self /\
    positions (reload default later self) = positions self /\
    _loaded (reload default later self) = true.
Proof.
  intros [t Ht] default later. unfold reload, __init__, load. simpl.
  rewrite Ht. repeat split.
Qed.

Lemma save_persisted now self : persisted (save now self).
Proof. exists now. reflexivity. Qed.

Lemma apply_trade_persists trade now self :
  apply_trade trade now self = self \/ persisted (apply_trade trade now self).
Proof.
  destruct (apply_trade_cases trade now self); [now left|right].
  apply save_persisted.
Qed.

Lemma close_position_persists pid e now self :
  match fst (close_position pid e now self) with
  | Some _ => persisted (snd (close_position pid e now self))
  | None => snd (close_position pid e now self) = self
  end.
Proof.
  unfold close_position.
  destruct (close_first pid e now (positions self)) as [[r rest]|]; simpl.
  - apply save_persisted.
  - reflexivity.
Qed.

Lemma persisted_resumable default self : persisted self -> resumable default self.
Proof.
  intros H later. destruct (persisted_reload self H default later) as (Hb & Hp & _).
  now split.
Qed.

Lemma init_resumable disk default now : resumable default (__init__ disk default now).
Proof.
  intros later.
  destruct disk as [| |[| |b] [| |l] upd]; split; reflexivity.
Qed.

Lemma run_resumable default ops : forall self,
  resumable default self -> resumable default (fst (run ops self)).
Proof.
  induction ops as [|[trade now|pid e now] ops IH]; intros self H; simpl.
  - exact H.
  - apply IH. destruct (apply_trade_persists trade now self) as [->|Hp]; [exact H|].
    now apply persisted_resumable.
  - pose proof (close_position_persists pid e now self) as Hc.
    destruct (close_position pid e now self) as [result self1]; simpl in Hc.
    assert (H1 : resumable default self1).
    { destruct result; [now apply persisted_resumable|now subst]. }
    specialize (IH self1 H1).
    destruct (run ops self1) as [self2 closes]. exact IH.
Qed.

(** X1 (restart).  Whatever the file held when the manager was
    constructed, and whatever opens and closes were made since, a manager
    constructed later on the same file with the same default balance
    resumes with exactly the balance and the positions of the running
    one. *)
Theorem restart_resumes_ledger (disk : file) (default : Q) (now later : datetime)
  (ops : list op) :
  let running := fst (run ops (__init__ disk default now)) in
  let restarted := __init__ (storage running) default later in
  current_balance restarted = current_balance running /\
  positions restarted = positions running.
Proof.
  intros running restarted.
  apply (run_resumable default ops (__init__ disk default now)
           (init_resumable disk default now) later).
Qed.

(** X2 (every mutation is saved).  An [apply_trade] that changes the ledger
    and a [close_position] that returns a record leave the file holding
    exactly the new balance and positions; a manager constructed on such a
    file, whatever its default balance, loads exactly that state. *)
Theorem mutations_are_persisted :
  (forall trade now self,
     apply_trade trade now self <> self -> persisted (apply_trade trade now self)) /\
  (forall pid e now self r,
     fst (close_position pid e now self) = Some r ->
     persisted (snd (close_position pid e now self))) /\
  (forall self,
     persisted self ->
     forall default later,
       current_balance (__init__ (storage self) default later) = current_balance self /\
       positions (__init__ (storage self) default later) = positions self /\
       _loaded (__init__ (storage self) default later) = true).
Proof.
  split; [|split].
  - intros trade now self Hne.
    destruct (apply_trade_persists trade now self) as [He|Hp]; [contradiction|exact Hp].
  - intros pid e now self r Hr.
    pose proof (close_position_persists pid e now self) as Hc.
    now rewrite Hr in Hc.
  - intros self Hp default later. exact (persisted_reload self Hp default later).
Qed.

Lemma mutations_are_persisted_witness :
  persisted stop_loss_ledger /\
  current_balance (__init__ (storage stop_loss_ledger) 250 one_past_noon) == 90.
Proof.
  destruct mutations_are_persisted as (Hopen & _ & Hload).
  assert (Hp : persisted stop_loss_ledger).
  { apply (Hopen (intent "BUY" 0.50 0.1) noon (fresh 100)). discriminate. }
  split; [exact Hp|].
  destruct (Hload stop_loss_ledger Hp 250 one_past_noon) as (Hb & _).
  rewrite Hb. reflexivity.
Defined.

(** ** Solvency and the shape of positions *)

Lemma clamp_unit_range x : 0 <= Qmax 0 (Qmin 1 x) /\ Qmax 0 (Qmin 1 x) <= 1.
Proof.
  split; [apply Q.le_max_l|].
  apply Q.max_lub; [discriminate|apply Q.le_min_l].
Qed.

Lemma change_of_floor side0 entry e :
  unit_price entry -> unit_price e -> -1 <= change_of side0 entry e.
Proof.
  intros [He0 He1] [Hx0 Hx1]. unfold change_of.
  destruct (side0 =? "BUY")%string; lra.
Qed.

Lemma apply_trade_solvent trade now self :
  solvent self -> unit_price (get (trade_price trade) 0.5) ->
  solvent (apply_trade trade now self).
Proof.
  intros [Hb Hl] Hprice.
  destruct (apply_trade_cases trade now self)
    as [|side0 price sf q _ _ _ Hp _]; [now split|].
  destruct (clamp_unit_range sf) as [Hc0 Hc1].
  set (c := Qmax 0 (Qmin 1 sf)) in *.
  split; simpl.
  - assert (H : c * current_balance self <= 1 * current_balance self).
    { apply Qmult_le_compat_r; assumption. }
    lra.
  - apply Forall_app. split; [exact Hl|].
    constructor; [|constructor]. simpl. split.
    + now apply Qmult_le_0_compat.
    + now rewrite Hp.
Qed.

Lemma close_position_solvent pid e now self :
  solvent self -> unit_price e ->
  solvent (snd (close_position pid e now self)).
Proof.
  intros [Hb Hl] He. unfold close_position.
  destruct (close_first pid e now (positions self)) as [[r rest]|] eqn:C;
    [|now split].
  simpl. rewrite Forall_forall in Hl.
  destruct (close_first_record _ _ _ _ _ _ C) as (pos & Hin & _ & ->). simpl.
  destruct (Hl pos Hin) as [Hn Hentry].
  pose proof (change_of_floor (side pos) _ _ Hentry He) as Hc.
  split.
  - set (c := change_of (side pos) (entry_price pos) e) in *.
    assert (H : 0 <= notional pos + notional pos * c).
    { setoid_replace (notional pos + notional pos * c)
        with (notional pos * (1 + c)) by ring.
      apply Qmult_le_0_compat; lra. }
    apply Qle_trans with (0 + 0); [discriminate|].
    apply Qplus_le_compat; assumption.
  - apply Forall_forall. intros x Hx. apply Hl.
    eapply close_first_incl; eauto.
Qed.

Lemma run_solvent ops : forall self,
  solvent self -> Forall op_prices_in_unit ops -> solvent (fst (run ops self)).
Proof.
  induction ops as [|[trade now|pid e now] ops IH]; intros self H Hops; simpl.
  - exact H.
  - inversion Hops; subst. apply IH; [|assumption].
    now apply apply_trade_solvent.
  - inversion Hops as [|o os Ho Hos]; subst. simpl in Ho.
    pose proof (close_position_solvent pid e now self H Ho) as Hc.
    destruct (close_position pid e now self) as [result self1]; simpl in Hc.
    specialize (IH self1 Hc Hos).
    destruct (run ops self1) as [self2 closes]. exact IH.
Qed.

(** X3 (solvency).  From a ledger with a non-negative balance and no
    positions, any sequence of opens and closes whose quoted and exit
    prices are probabilities (in [0, 1]) keeps the balance non-negative and
    every open notional non-negative: an open never takes more than the
    balance, and a close never loses more than the notional. *)
Theorem ledger_stays_solvent (self : PortfolioManager) (ops : list op) :
  0 <= current_balance self ->
  positions self = [] ->
  Forall op_prices_in_unit ops ->
  0 <= current_balance (fst (run ops self)) /\
  Forall (fun pos => 0 <= notional pos) (positions (fst (run ops self))).
Proof.
  intros Hb Hempty Hops.
  assert (Hs : solvent self).
  { split; [exact Hb|]. rewrite Hempty. constructor. }
  destruct (run_solvent ops self Hs Hops) as [Hb' Hl'].
  split; [exact Hb'|].
  eapply Forall_impl; [|exact Hl']. now intros pos [Hn _].
Qed.

Lemma ledger_stays_solvent_witness :
  let ops := [Open (intent "BUY" 0.40 5) noon;
              Close "pos_20240501_120000" 0 one_past_noon;
              Open (intent "SELL" 0.70 0.5) one_past_noon] in
  0 <= current_balance (fst (run ops (fresh 100))) /\
  Forall (fun pos => 0 <= notional pos) (positions (fst (run ops (fresh 100)))).
Proof.
  intros ops. apply (ledger_stays_solvent (fresh 100) ops).
  - discriminate.
  - reflexivity.
  - repeat constructor; simpl; discriminate.
Defined.

Lemma apply_trade_well_formed trade now self :
  Forall well_formed (positions self) ->
  Forall well_formed (positions (apply_trade trade now self)).
Proof.
  intros H. unfold apply_trade.
  destruct (Qle_bool (get (trade_size trade) 0) 0) eqn:Hsz; [exact H|].
  assert (Hpos : 0 < get (trade_size trade) 0).
  { apply Qnot_le_lt. intros Hle. apply Qle_bool_iff in Hle. congruence. }
  destruct (upper (get (trade_side trade) "") =? "BUY")%string eqn:Hb.
  - apply String.eqb_eq in Hb. rewrite open_position_id.
    apply Forall_app. split; [exact H|]. constructor; [|constructor].
    split; [exact Hpos|]. left. simpl. split; [exact Hb|reflexivity].
  - destruct (upper (get (trade_side trade) "") =? "SELL")%string eqn:Hs; [|exact H].
    apply String.eqb_eq in Hs. rewrite open_position_id.
    apply Forall_app. split; [exact H|]. constructor; [|constructor].
    split; [exact Hpos|]. right. simpl. split; [exact Hs|reflexivity].
Qed.

Lemma close_position_keeps P pid e now self :
  Forall P (positions self) ->
  Forall P (positions (snd (close_position pid e now self))).
Proof.
  intros H. unfold close_position.
  destruct (close_first pid e now (positions self)) as [[r rest]|] eqn:C;
    [|assumption].
  simpl. rewrite Forall_forall in H |- *.
  intros x Hx. apply H. eapply close_first_incl; eauto.
Qed.

Lemma run_well_formed ops : forall self,
  Forall well_formed (positions self) ->
  Forall well_formed (positions (fst (run ops self))).
Proof.
  induction ops as [|[trade now|pid e now] ops IH]; intros self H; simpl.
  - assumption.
  - apply IH, apply_trade_well_formed, H.
  - pose proof (close_position_keeps well_formed pid e now self H) as Hc.
    destruct (close_position pid e now self) as [result self1]; simpl in Hc.
    specialize (IH self1 Hc).
    destruct (run ops self1) as [self2 closes]. exact IH.
Qed.



(** ** Ids of positions opened in different seconds *)

Lemma read_number_zeros k s :
  read_number (zeros k ++ s) = read_number s.
Proof.
  induction k as [|k IH]; simpl; [reflexivity|].
  rewrite <- IH. unfold read_number. simpl.
  destruct (NilEmpty.uint_of_string (zeros k ++ s)); reflexivity.
Qed.

(** Reading a zero-filled number back gives the number. *)
Lemma read_number_zfill width n : read_number (zfill width (digits n)) = n.
Proof.
  unfold zfill. rewrite read_number_zeros.
  unfold read_number, digits. rewrite NilEmpty.usu.
  apply Unsigned.of_to.
Qed.

Lemma prints_on_length width (first count n : N) :
  prints_on width (N.to_nat first) (N.to_nat count) = true ->
  (first <= n < first + count)%N ->
  String.length (zfill width (digits n)) = width.
Proof.
  intros Hall Hn. unfold prints_on in Hall.
  rewrite forallb_forall in Hall.
  specialize (Hall (N.to_nat n)). rewrite N2Nat.id in Hall.
  apply Nat.eqb_eq, Hall, in_seq. lia.
Qed.

Lemma two_digits n : (n < 100)%N -> String.length (zfill 2 (digits n)) = 2%nat.
Proof.
  intros H. apply (prints_on_length 2 0 100); [vm_compute; reflexivity|lia].
Qed.

Lemma four_digits n :
  (1000 <= n <= 9999)%N -> String.length (zfill 4 (digits n)) = 4%nat.
Proof.
  intros H. apply (prints_on_length 4 1000 9000); [vm_compute; reflexivity|lia].
Qed.

Lemma append_same_length (a1 a2 r1 r2 : string) :
  String.length a1 = String.length a2 ->
  (a1 ++ r1 = a2 ++ r2)%string -> a1 = a2 /\ r1 = r2.
Proof.
  revert a2. induction a1 as [|c a1 IH]; intros [|c2 a2] Hlen H; simpl in *;
    try discriminate.
  - now split.
  - injection H as -> H. injection Hlen as Hlen.
    destruct (IH a2 Hlen H) as [-> ->]. now split.
Qed.

(** On valid clock readings the stamp determines the second. *)
Lemma stamp_determines_second a b :
  valid_clock a -> valid_clock b ->
  strftime_Ymd_HMS a = strftime_Ymd_HMS b -> same_second a b.
Proof.
  intros (Hya & Hma & Hda & Hha & Hmia & Hsa) (Hyb & Hmb & Hdb & Hhb & Hmib & Hsb).
  unfold strftime_Ymd_HMS. intros H.
  apply append_same_length in H;
    [|rewrite !four_digits by assumption; reflexivity].
  destruct H as [Hy H].
  apply append_same_length in H; [|rewrite !two_digits by lia; reflexivity].
  destruct H as [Hm H].
  apply append_same_length in H; [|rewrite !two_digits by lia; reflexivity].
  destruct H as [Hd H].
  apply append_same_length in H; [|reflexivity].
  destruct H as [_ H].
  apply append_same_length in H; [|rewrite !two_digits by lia; reflexivity].
  destruct H as [Hh H].
  apply append_same_length in H; [|rewrite !two_digits by lia; reflexivity].
  destruct H as [Hmi Hs].
  apply (f_equal read_number) in Hy, Hm, Hd, Hh, Hmi, Hs.
  rewrite !read_number_zfill in Hy, Hm, Hd, Hh, Hmi, Hs.
  repeat split; assumption.
Qed.

Lemma id_at_stamp a b : id_at a = id_at b -> strftime_Ymd_HMS a = strftime_Ymd_HMS b.
Proof. unfold id_at. simpl. intros H. now injection H. Qed.

Lemma distinct_seconds_ids l :
  Forall valid_clock l -> distinct_seconds l -> NoDup (map id_at l).
Proof.
  induction l as [|d l IH]; intros Hv Hd; simpl; [constructor|].
  inversion Hv as [|x xs Hvd Hvl]; subst. destruct Hd as [Hfresh Hd].
  constructor; [|now apply IH].
  intros Hin. apply in_map_iff in Hin. destruct Hin as (d' & Heq & Hin).
  apply (Hfresh d' Hin). apply stamp_determines_second; auto.
  - rewrite Forall_forall in Hvl. now apply Hvl.
  - symmetry. now apply id_at_stamp.
Qed.

Lemma close_first_split pid e now l r rest :
  close_first pid e now l = Some (r, rest) ->
  exists l1 pos l2, l = (l1 ++ pos :: l2)%list /\ rest = (l1 ++ l2)%list.
Proof.
  revert r rest. induction l as [|p l IH]; intros r rest H; simpl in H.
  - discriminate.
  - destruct (id p =? pid)%string.
    + inversion H; subst. now exists [], p, rest.
    + destruct (close_first pid e now l) as [[r' rest']|]; [|discriminate].
      inversion H; subst.
      destruct (IH _ _ eq_refl) as (l1 & pos & l2 & -> & ->).
      now exists (p :: l1), pos, l2.
Qed.

Lemma close_position_ids pid e now self :
  NoDup (map id (positions self)) ->
  NoDup (map id (positions (snd (close_position pid e now self)))) /\
  incl (positions (snd (close_position pid e now self))) (positions self).
Proof.
  intros Hnd. unfold close_position.
  destruct (close_first pid e now (positions self)) as [[r rest]|] eqn:C; simpl.
  - split; [|eapply close_first_incl; eauto].
    destruct (close_first_split _ _ _ _ _ _ C) as (l1 & pos & l2 & Hl & ->).
    rewrite Hl, map_app in Hnd. simpl in Hnd.
    rewrite map_app. eapply NoDup_remove_1; eauto.
  - split; [exact Hnd|apply incl_refl].
Qed.

Lemma run_distinct_ids ops : forall self,
  NoDup (map id (positions self)) ->
  NoDup (map id_at (open_times ops)) ->
  (forall t, In t (open_times ops) -> ~ In (id_at t) (map id (positions self))) ->
  NoDup (map id (positions (fst (run ops self)))).
Proof.
  induction ops as [|[trade now|pid e now] ops IH]; intros self Hnd Hops Hfresh; simpl.
  - exact Hnd.
  - simpl in Hops, Hfresh. inversion Hops as [|x xs Hnotin Hops']; subst.
    destruct (apply_trade_cases trade now self)
      as [|side0 price sf q _ _ _ _ _].
    + apply IH; auto.
    + apply IH; auto.
      * rewrite open_position_id, map_app. simpl.
        apply NoDup_app; [exact Hnd|repeat constructor; intros []|].
        intros a Ha [<-|[]]. apply (Hfresh now); auto.
      * intros t Ht. rewrite open_position_id, map_app. simpl.
        intros Hin. apply in_app_or in Hin. destruct Hin as [Hin|[Heq|[]]].
        -- apply (Hfresh t); auto.
        -- apply Hnotin. change (id_at now = id_at t) in Heq. rewrite Heq.
           now apply in_map.
  - destruct (close_position_ids pid e now self Hnd) as [Hnd1 Hincl].
    destruct (close_position pid e now self) as [result self1]; simpl in *.
    assert (Hfresh1 : forall t, In t (open_times ops) ->
                                ~ In (id_at t) (map id (positions self1))).
    { intros t Ht Hin. apply (Hfresh t Ht).
      apply in_map_iff in Hin. destruct Hin as (p & Hp & Hin).
      apply in_map_iff. exists p. split; [exact Hp|now apply Hincl]. }
    specialize (IH self1 Hnd1 Hops Hfresh1).
    destruct (run ops self1) as [self2 closes]. exact IH.
Qed.

(** X5 (ids across seconds).  From a ledger with no positions, as long as
    no two opens of the sequence fall within the same second of a valid
    clock, the ids of the open positions are pairwise distinct after the
    sequence (and after each of its prefixes), whatever closes are made in
    between. *)
Theorem ids_distinct_across_seconds (self : PortfolioManager) (ops : list op) :
  positions self = [] ->
  Forall valid_clock (open_times ops) ->
  distinct_seconds (open_times ops) ->
  NoDup (map id (positions (fst (run ops self)))).
Proof.
  intros Hempty Hvalid Hdistinct.
  apply run_distinct_ids.
  - rewrite Hempty. constructor.
  - now apply distinct_seconds_ids.
  - intros t _. rewrite Hempty. intros [].
Qed.

Lemma ids_distinct_across_seconds_witness :
  NoDup (map id (positions (fst (run [Open (intent "BUY" 0.40 0.2) noon;
                                      Open (intent "SELL" 0.50 0.5) one_past_noon]
                                     (fresh 100))))).
Proof.
  apply (ids_distinct_across_seconds (fresh 100)).
  - reflexivity.
  - repeat constructor; vm_compute; discriminate.
  - simpl. split; [|split; [intros d' []|exact I]].
    intros d' [<-|[]] (_ & _ & _ & _ & Hmin & _). discriminate Hmin.
Defined.

(** X6 (the stamp identifies the second).  On valid clock readings two
    stamps [%Y%m%d_%H%M%S] are equal exactly when the readings fall within
    the same second; so two positions opened by [apply_trade], on any
    ledgers and from any trades, carry the same id exactly when the clock
    readings their ids were formatted from fall within the same second. *)
Theorem same_id_iff_same_second (trade1 trade2 : Trade) (a b : datetime)
  (self1 self2 : PortfolioManager) (p q : Position) :
  positions (apply_trade trade1 a self1) = (positions self1 ++ [p])%list ->
  positions (apply_trade trade2 b self2) = (positions self2 ++ [q])%list ->
  valid_clock a -> valid_clock b ->
  (id p = id q <-> same_second a b).
Proof.
  intros Hp Hq Hva Hvb.
  assert (Hidp : id p = id_at a).
  { destruct (apply_trade_cases trade1 a self1).
    - apply (f_equal (@List.length Position)) in Hp.
      rewrite length_app in Hp. simpl in Hp. lia.
    - rewrite open_position_id in Hp. apply app_inj_tail in Hp.
      destruct Hp as [_ <-]. reflexivity. }
  assert (Hidq : id q = id_at b).
  { destruct (apply_trade_cases trade2 b self2).
    - apply (f_equal (@List.length Position)) in Hq.
      rewrite length_app in Hq. simpl in Hq. lia.
    - rewrite open_position_id in Hq. apply app_inj_tail in Hq.
      destruct Hq as [_ <-]. reflexivity. }
  rewrite Hidp, Hidq. split.
  - intros Heq. apply stamp_determines_second; auto. now apply id_at_stamp.
  - intros Hsame. unfold id_at. now rewrite (same_second_stamp a b Hsame).
Qed.

Lemma same_id_iff_same_second_witness :
  exists p q,
    positions two_opens_in_one_second = [p; q] /\
    side p <> side q /\
    (id p = id q <-> same_second noon noon_and_a_half).
Proof.
  eexists. eexists.
  split; [reflexivity|]. split; [discriminate|].
  apply (same_id_iff_same_second (intent "BUY" 0.40 0.2) (intent "SELL" 0.50 0.5)
           noon noon_and_a_half (fresh 100)
           (apply_trade (intent "BUY" 0.40 0.2) noon (fresh 100))).
  - reflexivity.
  - reflexivity.
  - unfold valid_clock. simpl. lia.
  - unfold valid_clock. simpl. lia.
Defined.

(** ** Closing by id *)

(** X7 (closing an unknown id).  [close_position] returns [None] exactly
    when no open position carries the id, and then it changes nothing:
    balance, positions and the file are as before.  When some position
    carries the id it returns a record for that id and removes exactly one
    position. *)
Theorem close_returns_none_iff (pid : string) (e : Q) (now : datetime)
  (self : PortfolioManager) :
  (fst (close_position pid e now self) = None
   <-> forall pos, In pos (positions self) -> id pos <> pid) /\
  (fst (close_position pid e now self) = None ->
   snd (close_position pid e now self) = self) /\
  (forall r, fst (close_position pid e now self) = Some r ->
     position_id r = pid /\
     S (List.length (positions (snd (close_position pid e now self))))
     = List.length (positions self)).
Proof.
  unfold close_position.
  pose proof (close_first_none pid e now (positions self)) as Hnone.
  destruct (close_first pid e now (positions self)) as [[r rest]|] eqn:C; simpl.
  - split; [|split].
    + split; [discriminate|]. intros H. apply Hnone in H. discriminate H.
    + discriminate.
    + intros r' Hr. inversion Hr; subst r'.
      destruct (close_first_record _ _ _ _ _ _ C) as (p & _ & _ & ->).
      split; [reflexivity|]. symmetry. eapply close_first_length; eauto.
  - split; [|split].
    + split; [intros _; now apply Hnone|reflexivity].
    + reflexivity.
    + discriminate.
Qed.

Lemma close_returns_none_iff_witness :
  snd (close_position "pos_19990101_000000" 0.60 one_past_noon stop_loss_ledger)
  = stop_loss_ledger.
Proof.
  destruct (close_returns_none_iff "pos_19990101_000000" 0.60 one_past_noon
              stop_loss_ledger) as (_ & Hsame & _).
  apply Hsame. reflexivity.
Defined.

(** X8 (closing twice).  On a ledger whose ids are pairwise distinct, a
    second close of the same id, at whatever price, returns [None] and
    leaves the ledger exactly as the first close left it: the balance is
    credited at most once per position. *)
Theorem second_close_finds_nothing (pid : string) (e1 e2 : Q)
  (now1 now2 : datetime) (self : PortfolioManager) :
  NoDup (map id (positions self)) ->
  let once := snd (close_position pid e1 now1 self) in
  fst (close_position pid e2 now2 once) = None /\
  snd (close_position pid e2 now2 once) = once.
Proof.
  intros Hnd once.
  pose proof (close_twice_distinct_ids pid e1 e2 now1 now2 self Hnd) as H.
  cbv zeta in H. fold once in H. rewrite H. now split.
Qed.

Lemma second_close_finds_nothing_witness :
  let once := snd (close_position "pos_20240501_120000" 0.60 one_past_noon
                     stop_loss_ledger) in
  fst (close_position "pos_20240501_120000" 0.44 one_past_noon once) = None /\
  snd (close_position "pos_20240501_120000" 0.44 one_past_noon once) = once.
Proof.
  apply (second_close_finds_nothing "pos_20240501_120000" 0.60 0.44
           one_past_noon one_past_noon stop_loss_ledger).
  repeat constructor. intros [].
Defined.

(** ** Mark to market and liquidation *)

Lemma running_pnl_records p now l : forall acc,
  fold_left (fun acc pos =>
               acc + notional pos * change_of (side pos) (entry_price pos) p) l acc
  = fold_left (fun acc r => acc + realized_pnl r)
              (map (fun pos => closed_record pos (id pos) p now) l) acc.
Proof.
  induction l as [|pos l IH]; intros acc; simpl.
  - reflexivity.
  - apply IH.
Qed.

Lemma close_head e now self pos rest :
  positions self = pos :: rest ->
  fst (close_position (id pos) e now self) = Some (closed_record pos (id pos) e now) /\
  positions (snd (close_position (id pos) e now self)) = rest.
Proof.
  intros H. unfold close_position. rewrite H. simpl.
  rewrite String.eqb_refl. simpl. now split.
Qed.

Lemma close_all_run e now : forall l self,
  positions self = l ->
  positions (fst (run (map (fun pos => Close (id pos) e now) l) self)) = [] /\
  snd (run (map (fun pos => Close (id pos) e now) l) self)
  = map (fun pos => closed_record pos (id pos) e now) l /\
  current_balance (fst (run (map (fun pos => Close (id pos) e now) l) self))
  = credited (current_balance self)
             (map (fun pos => closed_record pos (id pos) e now) l).
Proof.
  induction l as [|pos rest IH]; intros self H; simpl.
  - repeat split. exact H.
  - destruct (close_head e now self pos rest H) as [Hr Hp].
    assert (Hb : current_balance (snd (close_position (id pos) e now self))
                 = current_balance self
                   + (notional pos
                      + notional pos * change_of (side pos) (entry_price pos) e)).
    { unfold close_position. rewrite H. simpl. rewrite String.eqb_refl.
      reflexivity. }
    destruct (close_position (id pos) e now self) as [result self1]; simpl in *.
    destruct (IH self1 Hp) as (IH1 & IH2 & IH3).
    destruct (run (map (fun pos0 => Close (id pos0) e now) rest) self1)
      as [self2 closes]; simpl in *.
    subst result. split; [exact IH1|]. split.
    + now rewrite IH2.
    + unfold credited in *. simpl. now rewrite IH3, Hb.
Qed.

(** X9 (mark to market agrees with closing).  For every ledger and price,
    [mark_to_market(price)] reports the number of open positions and the
    balance, and leaves the ledger unchanged.  Closing every open position
    at that price (front to back, ids colliding or not) empties the
    ledger and returns one record per position, in order, each for the
    position it was asked for; the unrealized PnL that [mark_to_market]
    reported is the realized PnL of these records added up in the same
    order, and the balance afterwards is the balance before credited, in
    order, with the notional plus the realized PnL of each record. *)
Theorem mark_to_market_agrees_with_closing (p : Q) (now : datetime)
  (self : PortfolioManager) :
  let summary := fst (mark_to_market (Some p) self) in
  let closed := close_all p now self in
  snd (mark_to_market (Some p) self) = self /\
  summary_positions summary = List.length (positions self) /\
  summary_balance summary = current_balance self /\
  positions (fst closed) = [] /\
  snd closed = map (fun pos => closed_record pos (id pos) p now) (positions self) /\
  unrealized_pnl summary = running_pnl (snd closed) /\
  current_balance (fst closed) = credited (current_balance self) (snd closed).
Proof.
  intros summary closed.
  destruct (close_all_run p now (positions self) self eq_refl)
    as (Hempty & Hrec & Hbal).
  fold (close_all p now self) in Hempty, Hrec, Hbal.
  fold closed in Hempty, Hrec, Hbal.
  assert (Hm : snd (mark_to_market (Some p) self) = self /\
               summary_positions summary = List.length (positions self) /\
               summary_balance summary = current_balance self /\
               unrealized_pnl summary
               = running_pnl (map (fun pos => closed_record pos (id pos) p now)
                                  (positions self))).
  { unfold summary, mark_to_market, running_pnl.
    destruct (positions self) as [|pos l] eqn:E.
    - repeat split.
    - repeat split. cbn [fst unrealized_pnl].
      apply running_pnl_records. }
  destruct Hm as (H1 & H2 & H3 & H4).
  repeat split; auto.
  - now rewrite Hrec.
  - now rewrite Hrec.
Qed.

(** ** The loop of [maintain_positions] *)

Lemma close_position_credits pid e now self :
  current_balance (snd (close_position pid e now self))
  = credited (current_balance self)
             (match fst (close_position pid e now self) with
              | Some r => [r]
              | None => []
              end) /\
  incl (positions (snd (close_position pid e now self))) (positions self) /\
  (List.length (positions (snd (close_position pid e now self)))
   + List.length (match fst (close_position pid e now self) with
                  | Some r => [r]
                  | None => []
                  end)
   = List.length (positions self))%nat.
Proof.
  unfold close_position.
  destruct (close_first pid e now (positions self)) as [[r rest]|] eqn:C; simpl.
  - split; [reflexivity|]. split.
    + eapply close_first_incl; eauto.
    + rewrite (close_first_length _ _ _ _ _ _ C). lia.
  - split; [reflexivity|]. split; [apply incl_refl|lia].
Qed.

Lemma maintain_loop_credits cfg draws now : forall snapshot k portfolio,
  current_balance (snd (maintain_loop cfg snapshot draws k now portfolio))
  = credited (current_balance portfolio)
             (fst (maintain_loop cfg snapshot draws k now portfolio)) /\
  incl (positions (snd (maintain_loop cfg snapshot draws k now portfolio)))
       (positions portfolio) /\
  (List.length (positions (snd (maintain_loop cfg snapshot draws k now portfolio)))
   + List.length (fst (maintain_loop cfg snapshot draws k now portfolio))
   = List.length (positions portfolio))%nat.
Proof.
  induction snapshot as [|pos rest IH]; intros k portfolio; simpl.
  - split; [reflexivity|]. split; [apply incl_refl|lia].
  - unfold maintain_position.
    destruct (triggered cfg _).
    + destruct (close_position_credits (id pos)
                  (clamp_price (entry_price pos + draws k)) now portfolio)
        as (Hc & Hi & Hl).
      destruct (close_position (id pos) _ now portfolio) as [closed pf1];
        simpl in Hc, Hi, Hl.
      destruct (IH (S k) pf1) as (IH1 & IH2 & IH3).
      destruct (maintain_loop cfg rest draws (S k) now pf1) as [alerts pf2];
        simpl in IH1, IH2, IH3 |- *.
      split; [|split].
      * rewrite IH1, Hc. destruct closed; reflexivity.
      * eapply incl_tran; eauto.
      * destruct closed; simpl in *; lia.
    + destruct (IH (S k) portfolio) as (IH1 & IH2 & IH3).
      destruct (maintain_loop cfg rest draws (S k) now portfolio) as [alerts pf2];
        simpl in IH1, IH2, IH3 |- *.
      auto.
Qed.

(** X10 (the ticks conserve the positions and credit the closes).  Whatever
    the draws, the thresholds and the ids, after a run of
    [maintain_positions] the balance is the balance before credited, in
    order, with the notional plus the realized PnL of each close the run
    reports; every position still open was open before; and the positions
    still open and the closes reported are together as many as the
    positions open before. *)
Theorem maintain_positions_conserves (cfg : TradingConfig) (draws : nat -> Q)
  (now : datetime) (portfolio : PortfolioManager) :
  let result := maintain_positions cfg draws now portfolio in
  current_balance (snd result) = credited (current_balance portfolio) (fst result) /\
  incl (positions (snd result)) (positions portfolio) /\
  (List.length (positions (snd result)) + List.length (fst result)
   = List.length (positions portfolio))%nat.
Proof.
  intros result. apply maintain_loop_credits.
Qed.

Lemma maintain_loop_records cfg draws now :
  forall snapshot kept k portfolio,
    positions portfolio = (kept ++ snapshot)%list ->
    NoDup (map id (kept ++ snapshot)) ->
    fst (maintain_loop cfg snapshot draws k now portfolio)
    = tick_records cfg snapshot draws k now.
Proof.
  induction snapshot as [|pos rest IH]; intros kept k portfolio Hpos Hnd; simpl.
  - reflexivity.
  - unfold maintain_position.
    destruct (triggered cfg _) eqn:Ht.
    + assert (Hfresh : forall p, In p kept -> id p <> id pos).
      { intros p Hp Heq. rewrite map_app in Hnd. simpl in Hnd.
        apply NoDup_remove_2 in Hnd. apply Hnd.
        apply in_or_app. left. rewrite <- Heq. now apply in_map. }
      unfold close_position. rewrite Hpos.
      rewrite (close_first_after_prefix _ _ _ _ _ _ Hfresh eq_refl).
      match goal with
      | |- context [maintain_loop cfg rest draws (S k) now ?pf] =>
          specialize (IH kept (S k) pf eq_refl)
      end.
      destruct (maintain_loop cfg rest draws (S k) now _) as [alerts pf2].
      simpl in IH |- *. f_equal. apply IH.
      rewrite map_app in Hnd |- *. simpl in Hnd.
      now apply NoDup_remove_1 in Hnd.
    + specialize (IH (kept ++ [pos])%list (S k) portfolio).
      destruct (maintain_loop cfg rest draws (S k) now portfolio) as [alerts pf2].
      simpl in IH |- *. rewrite <- !app_assoc in IH. simpl in IH.
      now apply IH.
Qed.

(** X11 (what the ticks close).  On a ledger whose ids are pairwise
    distinct, a run of [maintain_positions] closes exactly the positions
    whose change, at the price observed for them, reaches the take-profit
    or the stop-loss threshold: it reports one record per such position,
    in order, each realizing [notional * change] at the observed price,
    and it leaves the other positions open, in order. *)
Theorem maintain_positions_closes_the_triggered (cfg : TradingConfig)
  (draws : nat -> Q) (now : datetime) (portfolio : PortfolioManager) :
  NoDup (map id (positions portfolio)) ->
  fst (maintain_positions cfg draws now portfolio)
  = tick_records cfg (positions portfolio) draws 0 now /\
  positions (snd (maintain_positions cfg draws now portfolio))
  = survivors cfg (positions portfolio) draws 0.
Proof.
  intros Hnd. split.
  - unfold maintain_positions, get_positions.
    apply (maintain_loop_records cfg draws now (positions portfolio) [] 0 portfolio);
      [reflexivity|exact Hnd].
  - now apply maintain_positions_survivors.
Qed.

Lemma maintain_positions_closes_the_triggered_witness :
  let draws := fun k : nat => -0.06 in
  positions (snd (maintain_positions default_config draws one_past_noon
                    stop_loss_ledger)) = [] /\
  List.length (fst (maintain_positions default_config draws one_past_noon
                      stop_loss_ledger)) = 1%nat.
Proof.
  intros draws.
  destruct (maintain_positions_closes_the_triggered default_config draws
              one_past_noon stop_loss_ledger) as [Hrec Hpos].
  - repeat constructor. intros [].
  - rewrite Hrec, Hpos. split; reflexivity.
Defined.

(** ** The paper trader *)

(** X12 (fill bounds).  Whatever arguments the paper trader is constructed
    with, its fill range satisfies 0.1 <= min_fill <= max_fill <= 1, so a
    fill fraction drawn in that range is positive and at most 1. *)
Theorem paper_fill_range (commission_bps0 slippage_bps0 : option Q)
  (min_fill0 max_fill0 : Q) :
  let trader := new_PaperTrader commission_bps0 slippage_bps0 min_fill0 max_fill0 in
  0.1 <= min_fill trader /\ min_fill trader <= max_fill trader /\
  max_fill trader <= 1 /\
  forall fill, min_fill trader <= fill -> fill <= max_fill trader ->
               0 < fill /\ fill <= 1.
Proof.
  intros trader. simpl.
  assert (Hlo : 0.1 <= Qmax 0.1 (Qmin min_fill0 1)) by apply Q.le_max_l.
  assert (Hmn : Qmax 0.1 (Qmin min_fill0 1) <= 1).
  { apply Q.max_lub; [discriminate|apply Q.le_min_r]. }
  assert (Hle : Qmax 0.1 (Qmin min_fill0 1)
                <= Qmax (Qmax 0.1 (Qmin min_fill0 1)) (Qmin max_fill0 1))
    by apply Q.le_max_l.
  assert (Hhi : Qmax (Qmax 0.1 (Qmin min_fill0 1)) (Qmin max_fill0 1) <= 1).
  { apply Q.max_lub; [exact Hmn|apply Q.le_min_r]. }
  repeat split; auto.
  - apply Qlt_le_trans with 0.1; [reflexivity|].
    apply Qle_trans with (Qmax 0.1 (Qmin min_fill0 1)); assumption.
  - apply Qle_trans with (Qmax (Qmax 0.1 (Qmin min_fill0 1)) (Qmin max_fill0 1));
      assumption.
Qed.

Lemma paper_fill_range_witness :
  let trader := new_PaperTrader None None (-3) 7 in
  min_fill trader == 0.1 /\ max_fill trader == 1 /\ 0 < 0.5 /\ 0.5 <= 1.
Proof.
  intros trader.
  destruct (paper_fill_range None None (-3) 7) as (_ & _ & _ & H).
  split; [reflexivity|]. split; [reflexivity|].
  apply H; discriminate.
Defined.

Lemma accepted_side_some trade :
  rejected trade = false ->
  exists v, trade_side trade = Some v /\ (upper v = "BUY" \/ upper v = "SELL").
Proof.
  intros H. destruct (accepted_side trade H) as [Hs|Hs];
    destruct (trade_side trade) as [v|]; simpl in Hs; try discriminate Hs;
    exists v; auto.
Qed.

(** What one execution of the paper trader does to a ledger without open
    positions. *)
Lemma paper_trade_is_immediate self trade fill walk now portfolio :
  positions portfolio = [] ->
  rejected trade = false ->
  0 < fill ->
  let result := _execute_trade self trade fill walk now portfolio in
  let debit := Qmax 0 (Qmin 1 (get (trade_size trade) 0 * fill))
               * current_balance portfolio in
  positions (snd result) = [] /\
  current_balance (snd result)
  = (current_balance portfolio - debit)
    + (debit + debit * price_change (fst result)) /\
  portfolio_balance (fst result) = Some (current_balance (snd result)).
Proof.
  intros Hempty Hok Hfill result debit.
  pose proof (accepted_size trade Hok) as Hsize.
  destruct (accepted_side_some trade Hok) as (v & Hv & Hside).
  assert (Hpos : Qle_bool (get (trade_size trade) 0 * fill) 0 = false).
  { destruct (Qle_bool _ 0) eqn:E; [|reflexivity].
    apply Qle_bool_iff in E.
    pose proof (Qmult_lt_0_compat _ _ Hsize Hfill) as Hp.
    exfalso. apply (Qlt_not_le _ _ Hp E). }
  unfold debit, result, _execute_trade. rewrite Hok.
  unfold apply_trade, filled_trade. simpl. rewrite Hpos, Hv. simpl.
  unfold close_position.
  destruct Hside as [Hs|Hs]; rewrite Hs; simpl; rewrite Hempty; simpl;
    rewrite String.eqb_refl; simpl; repeat split; reflexivity.
Qed.

(** X13 (a paper trade on an empty ledger).  When the ledger has no open
    position, an executed paper trade opens a position and closes it at
    once: the ledger has no open position afterwards, the report carries
    the new balance, and the balance is the balance before, debited with
    the notional (the filled size, clamped to [0, 1], times the balance)
    and then credited with that notional plus the notional times the
    simulated price change of the report.  The commission of the report
    is not charged to the ledger. *)
Theorem paper_trade_on_empty_ledger (self : PaperTrader) (trade : Trade)
  (fill walk : Q) (now : datetime) (portfolio : PortfolioManager) :
  positions portfolio = [] ->
  rejected trade = false ->
  0 < fill ->
  let result := _execute_trade self trade fill walk now portfolio in
  let debit := Qmax 0 (Qmin 1 (get (trade_size trade) 0 * fill))
               * current_balance portfolio in
  positions (snd result) = [] /\
  current_balance (snd result)
  = (current_balance portfolio - debit)
    + (debit + debit * price_change (fst result)) /\
  portfolio_balance (fst result) = Some (current_balance (snd result)).
Proof.
  exact (paper_trade_is_immediate self trade fill walk now portfolio).
Qed.

Lemma paper_trade_on_empty_ledger_witness :
  let trader := new_PaperTrader (Some 10) (Some 0) 0.6 1 in
  let result := _execute_trade trader (paper_intent "BUY" 0.50 0.1 10) 0.6 0.05
                               noon (fresh 100) in
  positions (snd result) = [] /\
  portfolio_balance (fst result) = Some (current_balance (snd result)) /\
  commission_paid (fst result) = Some (10 * 0.6 * (10 / 10000)).
Proof.
  intros trader result.
  destruct (paper_trade_on_empty_ledger trader (paper_intent "BUY" 0.50 0.1 10)
              0.6 0.05 noon (fresh 100)) as (Hp & _ & Hr); try reflexivity.
  split; [exact Hp|]. split; [exact Hr|reflexivity].
Defined.

(** ** Sizing of a trade *)

Lemma position_limit_range cfg :
  0 <= position_limit cfg /\ position_limit cfg <= 1 /\
  (0 <= max_position_size cfg -> position_limit cfg <= max_position_size cfg).
Proof.
  unfold position_limit. split; [apply Q.le_max_l|]. split.
  - apply Q.max_lub; [discriminate|apply Q.le_min_r].
  - intros H. apply Q.max_lub; [exact H|apply Q.le_min_l].
Qed.

Lemma clamped_size_range cfg size_val :
  0 <= clamped_size cfg size_val /\
  clamped_size cfg size_val <= position_limit cfg.
Proof.
  unfold clamped_size. split; [apply Q.le_max_l|].
  apply Q.max_lub; [apply position_limit_range|apply Q.le_min_r].
Qed.



(** ** Daily statistics *)

Lemma Qlt_bool_iff x y : Qlt_bool x y = true <-> x < y.
Proof.
  unfold Qlt_bool. rewrite negb_true_iff. split.
  - intros H. apply Qnot_le_lt. intros Hle. apply Qle_bool_iff in Hle. congruence.
  - intros H. destruct (Qle_bool y x) eqn:E; [|reflexivity].
    apply Qle_bool_iff in E. exfalso. apply (Qlt_not_le _ _ H E).
Qed.

Lemma update_stats_fold results : forall stats,
  let final := fold_left _update_stats results stats in
  total_trades final = (total_trades stats + List.length results)%nat /\
  winning_trades final = (winning_trades stats + wins results)%nat /\
  losing_trades final = (losing_trades stats + losses results)%nat /\
  total_pnl final == total_pnl stats + pnl_sum results /\
  stats_positions final = (stats_positions stats ++ results)%list.
Proof.
  induction results as [|r results IH]; intros stats final.
  - unfold final, wins, losses. simpl. rewrite !Nat.add_0_r, app_nil_r.
    repeat split. ring.
  - unfold final. simpl.
    destruct (IH (_update_stats stats r)) as (Ht & Hw & Hl & Hp & Hs).
    rewrite Ht, Hw, Hl, Hp, Hs. clear Ht Hw Hl Hp Hs IH.
    unfold wins, losses, _update_stats. simpl.
    destruct (Qlt_bool 0 (pnl r)) eqn:Hwin.
    + assert (Hlose : Qlt_bool (pnl r) 0 = false).
      { destruct (Qlt_bool (pnl r) 0) eqn:E; [|reflexivity].
        apply Qlt_bool_iff in Hwin, E. exfalso.
        apply (Qlt_irrefl 0). now apply Qlt_trans with (pnl r). }
      rewrite Hlose. simpl. rewrite <- app_assoc. simpl.
      repeat split; try lia. ring.
    + destruct (Qlt_bool (pnl r) 0); simpl; rewrite <- app_assoc; simpl;
        repeat split; try lia; ring.
Qed.

Lemma filter_length_le {A} (f : A -> bool) l :
  (List.length (filter f l) <= List.length l)%nat.
Proof.
  induction l as [|a l IH]; simpl; [lia|]. destruct (f a); simpl; lia.
Qed.

Lemma wins_losses_le results :
  (wins results + losses results <= List.length results)%nat.
Proof.
  unfold wins, losses. induction results as [|r results IH]; simpl; [lia|].
  destruct (Qlt_bool 0 (pnl r)) eqn:Hwin; destruct (Qlt_bool (pnl r) 0) eqn:Hlose;
    simpl; try lia.
  apply Qlt_bool_iff in Hwin, Hlose. exfalso.
  apply (Qlt_irrefl 0). now apply Qlt_trans with (pnl r).
Qed.



(** ** Daily limits *)

Lemma Qlt_bool_false x y : Qlt_bool x y = false <-> y <= x.
Proof.
  unfold Qlt_bool. rewrite negb_false_iff. apply Qle_bool_iff.
Qed.

(** X17 (daily limits).  [should_stop_trading] answers [True] as soon as
    the number of trades has reached the daily limit, whatever the PnL.
    Below that limit, outside dry-run mode the available balance is zero
    and the answer is [False] whatever the loss.  In dry-run mode with a
    positive balance and an integer PnL, the answer is [True] exactly when
    the loss (the PnL below zero) has reached [max_daily_loss] times the
    balance. *)
Theorem should_stop_trading_limits (self : RiskLimits) (total_trades0 : option Z)
  (total_pnl0 : option number) :
  ((max_daily_trades self <= get total_trades0 0)%Z ->
   should_stop_trading self total_trades0 total_pnl0 = Returned true) /\
  ((get total_trades0 0 < max_daily_trades self)%Z ->
   is_dry_run self = false ->
   should_stop_trading self total_trades0 total_pnl0 = Returned false) /\
  (forall z,
     (get total_trades0 0 < max_daily_trades self)%Z ->
     0 < get_available_balance self ->
     get total_pnl0 (Int 0) = Int z ->
     exists answer,
       should_stop_trading self total_trades0 total_pnl0 = Returned answer /\
       (answer = true
        <-> max_daily_loss self * get_available_balance self
            <= inject_Z (Z.max 0 (- z)))).
Proof.
  unfold should_stop_trading. split; [|split].
  - intros H. apply Z.leb_le in H. now rewrite H.
  - intros H Hmode. apply Z.leb_gt in H. rewrite H.
    unfold get_available_balance. rewrite Hmode. reflexivity.
  - intros z H Hbal Hpnl. apply Z.leb_gt in H. rewrite H.
    apply Qlt_bool_iff in Hbal. rewrite Hbal. apply Qlt_bool_iff in Hbal.
    rewrite Hpnl. simpl.
    assert (Hloss : Z.abs (if (0 <? z)%Z then 0%Z else z) = Z.max 0 (- z)).
    { destruct (0 <? z)%Z eqn:E; [apply Z.ltb_lt in E|apply Z.ltb_ge in E]; lia. }
    rewrite Hloss.
    set (loss := inject_Z (Z.max 0 (- z))).
    set (b := get_available_balance self) in *.
    destruct (Qle_bool (max_daily_loss self) (loss / b)) eqn:E.
    + exists true. split; [reflexivity|]. split; [intros _|reflexivity].
      apply Qle_bool_iff in E.
      apply Qle_trans with (loss / b * b).
      * apply Qmult_le_compat_r; [exact E|now apply Qlt_le_weak].
      * rewrite Qmult_comm, Qmult_div_r; [apply Qle_refl|].
        intros Hz. rewrite Hz in Hbal. discriminate Hbal.
    + exists false. split; [reflexivity|]. split; [discriminate|].
      intros Hle. exfalso.
      assert (Hq : Qle_bool (max_daily_loss self) (loss / b) = true).
      { apply Qle_bool_iff. apply Qle_shift_div_l; assumption. }
      congruence.
Qed.

Lemma should_stop_trading_limits_witness :
  should_stop_trading default_limits (Some 10%Z) (Some (Float (-3)))
  = Returned true /\
  exists answer,
    should_stop_trading default_limits (Some 3%Z) (Some (Int (-10)))
    = Returned answer /\
    (answer = true
     <-> max_daily_loss default_limits * get_available_balance default_limits
         <= inject_Z (Z.max 0 (- (-10)))).
Proof.
  destruct (should_stop_trading_limits default_limits (Some 10%Z)
              (Some (Float (-3)))) as (Hcount & _).
  destruct (should_stop_trading_limits default_limits (Some 3%Z)
              (Some (Int (-10)))) as (_ & _ & Hloss).
  split.
  - apply Hcount. simpl. lia.
  - apply (Hloss (-10)%Z); [simpl; lia|reflexivity|reflexivity].
Defined.

Lemma should_stop_float self total_trades0 q :
  should_stop_trading self total_trades0 (Some (Float q)) = TypeError
  <-> (get total_trades0 0 < max_daily_trades self)%Z /\
      0 < get_available_balance self /\ q <= 0.
Proof.
  unfold should_stop_trading. simpl.
  destruct (max_daily_trades self <=? get total_trades0 0)%Z eqn:Hc.
  - apply Z.leb_le in Hc. split; [discriminate|]. intros (H & _). lia.
  - apply Z.leb_gt in Hc.
    destruct (Qlt_bool 0 (get_available_balance self)) eqn:Hb.
    + apply Qlt_bool_iff in Hb.
      destruct (Qlt_bool 0 q) eqn:Hq.
      * apply Qlt_bool_iff in Hq.
        destruct (Qle_bool _ _); (split; [discriminate|]);
          intros (_ & _ & Hle); exfalso; apply (Qlt_not_le _ _ Hq Hle).
      * apply Qlt_bool_false in Hq. split; auto.
    + apply Qlt_bool_false in Hb. split; [discriminate|].
      intros (_ & Hpos & _). exfalso. apply (Qlt_not_le _ _ Hpos Hb).
Qed.

(** X18 (the loss check on a float PnL).  The traders keep their total PnL
    as a [float] and the available balance is a [Decimal], which a
    [float] cannot be divided by.  So the check before a dry-run trade
    raises a [TypeError] exactly when the number of trades is below the
    daily limit, the available balance is positive and the total PnL is
    not positive; it never answers that a loss limit is reached.  In
    particular it raises for a trader that has not traded yet. *)
Theorem loss_check_raises_on_float_pnl (limits : RiskLimits)
  (daily_stats : DailyStats) :
  (pre_trade_logic limits daily_stats = TypeError
   <-> (Z.of_nat (total_trades daily_stats) < max_daily_trades limits)%Z /\
       0 < get_available_balance limits /\ total_pnl daily_stats <= 0) /\
  (should_stop_trading limits (Some (Z.of_nat (total_trades daily_stats)))
     (Some (Float (total_pnl daily_stats))) = Returned true ->
   (max_daily_trades limits <= Z.of_nat (total_trades daily_stats))%Z
   \/ max_daily_loss limits <= 0) /\
  ((0 < max_daily_trades limits)%Z -> 0 < get_available_balance limits ->
   pre_trade_logic limits initial_stats = TypeError).
Proof.
  assert (Hpre : forall stats,
            pre_trade_logic limits stats = TypeError
            <-> should_stop_trading limits (Some (Z.of_nat (total_trades stats)))
                  (Some (Float (total_pnl stats))) = TypeError).
  { intros stats. unfold pre_trade_logic.
    destruct (should_stop_trading limits (Some (Z.of_nat (total_trades stats)))
                (Some (Float (total_pnl stats))));
      split; try discriminate; reflexivity. }
  pose proof (should_stop_float limits (Some (Z.of_nat (total_trades daily_stats)))
                (total_pnl daily_stats)) as Hiff.
  split; [|split].
  - rewrite Hpre. exact Hiff.
  - clear Hiff Hpre. unfold should_stop_trading. simpl.
    destruct (max_daily_trades limits <=? Z.of_nat (total_trades daily_stats))%Z eqn:Hc.
    + apply Z.leb_le in Hc. now left.
    + destruct (Qlt_bool 0 (get_available_balance limits)) eqn:Hb; [|discriminate].
      apply Qlt_bool_iff in Hb.
      destruct (Qlt_bool 0 (total_pnl daily_stats)); [|discriminate].
      destruct (Qle_bool _ _) eqn:E; [|discriminate].
      intros _. right. apply Qle_bool_iff in E.
      simpl in E. unfold Qdiv in E. rewrite Qmult_0_l in E. exact E.
  - intros Hmax Hbal. apply Hpre.
    apply (should_stop_float limits (Some (Z.of_nat (total_trades initial_stats)))
             (total_pnl initial_stats)).
    simpl. repeat split; [lia|exact Hbal|discriminate].
Qed.

Lemma loss_check_raises_on_float_pnl_witness :
  pre_trade_logic default_limits initial_stats = TypeError.
Proof.
  destruct (loss_check_raises_on_float_pnl default_limits initial_stats)
    as (_ & _ & H).
  apply H; reflexivity.
Defined.

(** ** Performance metrics *)

Lemma pick_larger a b :
  let m := if Qlt_bool a b then b else a in
  a <= m /\ b <= m /\ (m = a \/ m = b).
Proof.
  simpl. destruct (Qlt_bool a b) eqn:E.
  - apply Qlt_bool_iff in E. repeat split; auto; try apply Qle_refl.
    now apply Qlt_le_weak.
  - apply Qlt_bool_false in E. repeat split; auto. apply Qle_refl.
Qed.

Lemma at_or_after_tail p l a b : at_or_after l a b -> at_or_after (p :: l) a b.
Proof.
  intros (l1 & l2 & -> & Hin). now exists (p :: l1), l2.
Qed.

Lemma at_or_after_head p l b : In b (p :: l) -> at_or_after (p :: l) p b.
Proof. intros Hin. now exists [], l. Qed.

Lemma at_or_after_cons p l a b :
  at_or_after (p :: l) a b -> (a = p /\ In b (p :: l)) \/ at_or_after l a b.
Proof.
  intros ([|q l1] & l2 & Heq & Hin); simpl in Heq; injection Heq as -> ->.
  - now left.
  - right. now exists l1, l2.
Qed.

Lemma drawdown_loop_bounds l : forall peak dd,
  dd <= drawdown_loop l peak dd /\
  (forall x, In x l -> peak - x <= drawdown_loop l peak dd) /\
  (forall a b, at_or_after l a b -> a - b <= drawdown_loop l peak dd).
Proof.
  induction l as [|pnl0 rest IH]; intros peak dd; simpl.
  - split; [apply Qle_refl|]. split; [intros x []|].
    intros a b (l1 & l2 & Heq & _). destruct l1; discriminate Heq.
  - destruct (pick_larger peak pnl0) as (Hp1 & Hp2 & _). simpl in Hp1, Hp2.
    set (peak1 := if Qlt_bool peak pnl0 then pnl0 else peak) in *.
    destruct (pick_larger dd (peak1 - pnl0)) as (Hd1 & Hd2 & _). simpl in Hd1, Hd2.
    set (dd1 := if Qlt_bool dd (peak1 - pnl0) then peak1 - pnl0 else dd) in *.
    destruct (IH peak1 dd1) as (Hdd & Hpeak & Hpairs).
    set (R := drawdown_loop rest peak1 dd1) in *.
    split; [lra|]. split.
    + intros x [<-|Hx]; [lra|]. specialize (Hpeak x Hx). lra.
    + intros a b Hab. apply at_or_after_cons in Hab.
      destruct Hab as [[-> [<-|Hb]]|Hab].
      * lra.
      * specialize (Hpeak b Hb). lra.
      * now apply Hpairs.
Qed.

Lemma drawdown_loop_attained l : forall peak dd,
  drawdown_loop l peak dd == dd \/
  (exists x, In x l /\ drawdown_loop l peak dd == peak - x) \/
  (exists a b, at_or_after l a b /\ drawdown_loop l peak dd == a - b).
Proof.
  induction l as [|pnl0 rest IH]; intros peak dd; simpl.
  - left. reflexivity.
  - destruct (pick_larger peak pnl0) as (_ & _ & Hp). simpl in Hp.
    set (peak1 := if Qlt_bool peak pnl0 then pnl0 else peak) in *.
    destruct (pick_larger dd (peak1 - pnl0)) as (_ & _ & Hd). simpl in Hd.
    set (dd1 := if Qlt_bool dd (peak1 - pnl0) then peak1 - pnl0 else dd) in *.
    destruct (IH peak1 dd1) as [HR|[(x & Hx & HR)|(a & b & Hab & HR)]].
    + destruct Hd as [Hd|Hd].
      * left. rewrite HR, Hd. reflexivity.
      * destruct Hp as [Hp|Hp].
        -- right. left. exists pnl0. split; [now left|].
           rewrite HR, Hd, Hp. reflexivity.
        -- right. right. exists pnl0, pnl0.
           split; [apply at_or_after_head; now left|].
           rewrite HR, Hd, Hp. reflexivity.
    + destruct Hp as [Hp|Hp].
      * right. left. exists x. split; [now right|].
        rewrite HR, Hp. reflexivity.
      * right. right. exists pnl0, x.
        split; [apply at_or_after_head; now right|].
        rewrite HR, Hp. reflexivity.
    + right. right. exists a, b. split; [now apply at_or_after_tail|exact HR].
Qed.

(** X19 (maximum drawdown).  [_calculate_max_drawdown] returns 0 for an
    empty list; for a non-empty list it returns the largest drop
    [a - b] from a value [a] of the list to a value [b] at the same place
    or later: it is never negative, no such drop exceeds it, and one of
    them equals it. *)
Theorem max_drawdown_is_largest_drop (pnl_values : list Q) :
  let result := _calculate_max_drawdown pnl_values in
  0 <= result /\
  (forall a b, at_or_after pnl_values a b -> a - b <= result) /\
  (pnl_values = [] -> result = 0) /\
  (pnl_values <> [] ->
   exists a b, at_or_after pnl_values a b /\ result == a - b).
Proof.
  intros result. unfold result, _calculate_max_drawdown.
  destruct pnl_values as [|first rest].
  - split; [apply Qle_refl|]. split.
    + intros a b (l1 & l2 & Heq & _). destruct l1; discriminate Heq.
    + split; [reflexivity|]. intros H. now contradiction H.
  - destruct (drawdown_loop_bounds (first :: rest) first 0) as (H0 & _ & Hpairs).
    split; [exact H0|]. split; [exact Hpairs|]. split; [discriminate|].
    intros _.
    destruct (drawdown_loop_attained (first :: rest) first 0)
      as [HR|[(x & Hx & HR)|(a & b & Hab & HR)]].
    + exists first, first. split; [apply at_or_after_head; now left|].
      rewrite HR. ring.
    + exists first, x. split; [now apply at_or_after_head|exact HR].
    + now exists a, b.
Qed.

Lemma max_drawdown_is_largest_drop_witness :
  _calculate_max_drawdown [3; 1; 4; -2; 5] == 6 /\
  4 - -2 <= _calculate_max_drawdown [3; 1; 4; -2; 5].
Proof.
  split; [reflexivity|].
  destruct (max_drawdown_is_largest_drop [3; 1; 4; -2; 5]) as (_ & Hpairs & _).
  apply Hpairs. exists [3; 1], [-2; 5]. split; [reflexivity|].
  right. left. reflexivity.
Defined.

Lemma sum_nonneg l : (forall x, In x l -> 0 <= x) -> 0 <= fold_right Qplus 0 l.
Proof.
  induction l as [|a l IH]; intros H; simpl; [apply Qle_refl|].
  apply Qle_trans with (0 + 0); [discriminate|].
  apply Qplus_le_compat; [apply H; now left|].
  apply IH. intros x Hx. apply H. now right.
Qed.

Lemma mean_nonneg l :
  (forall x, In x l -> 0 <= x) -> l <> [] -> 0 <= mean l.
Proof.
  intros H Hne. unfold mean.
  apply Qle_shift_div_l.
  - destruct l; [contradiction|]. unfold Qlt. simpl. lia.
  - rewrite Qmult_0_l. now apply sum_nonneg.
Qed.

(** X20 (consistency score).  [_calculate_consistency_score] always lies
    between 0 and 100, and it is 100 for fewer than two values. *)
Theorem consistency_score_range (pnl_values : list Q) :
  0 <= _calculate_consistency_score pnl_values /\
  _calculate_consistency_score pnl_values <= 100 /\
  ((List.length pnl_values < 2)%nat ->
   _calculate_consistency_score pnl_values = 100).
Proof.
  unfold _calculate_consistency_score.
  destruct (List.length pnl_values <? 2)%nat eqn:Hlen.
  - repeat split; discriminate.
  - apply Nat.ltb_ge in Hlen.
    split; [|split; [|intros H; lia]].
    + destruct (Qeq_bool _ 0); [discriminate|apply Q.le_max_l].
    + destruct (Qeq_bool _ 0); [discriminate|].
      apply Q.max_lub; [discriminate|].
      set (deviations := map (fun pnl0 => Qabs (pnl0 - mean pnl_values)) pnl_values).
      assert (Hm : 0 <= mean deviations).
      { apply mean_nonneg.
        - intros x Hx. apply in_map_iff in Hx. destruct Hx as (y & <- & _).
          apply Qabs_nonneg.
        - intros He. apply (f_equal (@List.length Q)) in He.
          unfold deviations in He. rewrite length_map in He. simpl in He. lia. }
      lra.
Qed.

Lemma consistency_score_range_witness :
  _calculate_consistency_score [7] = 100 /\
  _calculate_consistency_score [1; 3] == 90.
Proof.
  destruct (consistency_score_range [7]) as (_ & _ & H).
  split; [apply H; simpl; lia|reflexivity].
Defined.

(** ** The sized trade *)

Lemma round_half_even_close y :
  y - (1 # 2) <= inject_Z (round_half_even y) /\
  inject_Z (round_half_even y) <= y + (1 # 2).
Proof.
  unfold round_half_even.
  pose proof (Qfloor_le y) as Hlo. pose proof (Qlt_floor y) as Hhi.
  rewrite inject_Z_plus in Hhi. change (inject_Z 1) with 1 in Hhi.
  set (f := Qfloor y) in *.
  destruct (Qcompare (y - inject_Z f) (1 # 2)) eqn:E.
  - apply Qeq_alt in E.
    destruct (Z.even f);
      [|rewrite inject_Z_plus; change (inject_Z 1) with 1]; split; lra.
  - apply Qlt_alt in E. split; lra.
  - apply Qgt_alt in E. rewrite inject_Z_plus. change (inject_Z 1) with 1.
    split; lra.
Qed.

Lemma round6_close x :
  x - (1 # 2000000) <= round6 x /\ round6 x <= x + (1 # 2000000).
Proof.
  unfold round6.
  destruct (round_half_even_close (x * 1000000)) as [Hlo Hhi].
  split.
  - apply Qle_shift_div_l; [reflexivity|]. lra.
  - apply Qle_shift_div_r; [reflexivity|]. lra.
Qed.


(** X22 (a paper trade end to end).  On a ledger without open positions
    and with a non-negative balance, one paper trade through
    [one_best_trade] (clamp of the size, execution, immediate close)
    leaves the ledger without open positions, whatever the advisor
    proposes and whatever the fill in (0, 1].  Either the sized trade is
    turned down and the ledger is the one before, or the ledger was
    debited with a notional that is not negative and at most the position
    limit times the balance, and credited with that notional plus the
    notional times the simulated price change of the report. *)
Theorem paper_trade_debits_at_most_the_limit (cfg : TradingConfig)
  (self : PaperTrader) (trade : Trade) (fill walk : Q) (now : datetime)
  (portfolio : PortfolioManager) :
  positions portfolio = [] ->
  0 <= current_balance portfolio ->
  0 < fill -> fill <= 1 ->
  let result := paper_trade cfg self trade fill walk now portfolio in
  positions (snd result) = [] /\
  (snd result = portfolio
   \/ exists debit,
        0 <= debit /\
        debit <= position_limit cfg * current_balance portfolio /\
        current_balance (snd result)
        = (current_balance portfolio - debit)
          + (debit + debit * price_change (fst result))).
Proof.
  intros Hempty Hbal Hfill0 Hfill1 result.
  unfold result, paper_trade.
  set (sized := sized_trade cfg trade (get_balance portfolio)).
  destruct (rejected sized) eqn:Hrej.
  - unfold _execute_trade. rewrite Hrej. simpl.
    split; [exact Hempty|]. left. reflexivity.
  - destruct (paper_trade_is_immediate self sized fill walk now portfolio
                Hempty Hrej Hfill0) as (Hp & Hb & _).
    split; [exact Hp|]. right.
    exists (Qmax 0 (Qmin 1 (get (trade_size sized) 0 * fill))
            * current_balance portfolio).
    split; [|split; [|exact Hb]].
    + apply Qmult_le_0_compat; [apply Q.le_max_l|exact Hbal].
    + apply Qmult_le_compat_r; [|exact Hbal].
      change (get (trade_size sized) 0)
        with (clamped_size cfg (get (trade_size trade) 0)).
      destruct (clamped_size_range cfg (get (trade_size trade) 0)) as [Hc0 Hc1].
      destruct (position_limit_range cfg) as (Hl0 & _ & _).
      set (c := clamped_size cfg (get (trade_size trade) 0)) in *.
      apply Q.max_lub; [exact Hl0|].
      apply Qle_trans with (c * fill); [apply Q.le_min_r|].
      apply Qle_trans with (c * 1).
      * destruct (Qle_lt_or_eq _ _ Hc0) as [Hcp|Hcz].
        -- now apply Qmult_le_l.
        -- rewrite <- Hcz. lra.
      * rewrite Qmult_1_r. exact Hc1.
Qed.

Lemma paper_trade_debits_at_most_the_limit_witness :
  let result := paper_trade default_config (new_PaperTrader None None 0.6 1)
                  (intent "BUY" 0.50 5) 0.6 0.08 noon (fresh 100) in
  positions (snd result) = [] /\
  (snd result = fresh 100
   \/ exists debit,
        0 <= debit /\
        debit <= position_limit default_config * 100 /\
        current_balance (snd result)
        = (100 - debit) + (debit + debit * price_change (fst result))).
Proof.
  intros result.
  apply (paper_trade_debits_at_most_the_limit default_config
           (new_PaperTrader None None 0.6 1) (intent "BUY" 0.50 5)
           0.6 0.08 noon (fresh 100));
    try reflexivity; discriminate.
Defined.
